(** * Escalation coordination engine: a shallow embedding

    The development follows the backend of the help-desk repository:
    the knowledge lookup of [AgentService], the help-request table and
    its model ([helpRequestModel]), the supervisor service and its
    resolve route, the response cache of the supervisor routes, the
    delivery ledger of the agent service, and the two timeout sweeps.

    Conventions of the embedding:
    - text is [string] (ASCII code units); the JavaScript string
      operations used by the code are written out in [Text];
    - instants are [Z] milliseconds, as returned by [Date.now()]; every
      operation receives the current instant as an argument and reads
      the clock once;
    - the [HelpRequest] table is the list of its rows in insertion
      order; the opaque primary key of a row is modelled as its
      position in the table (rows are never deleted by the backend);
    - in-process maps and sets are [gmap] and [gset];
    - the event bus runs its listeners synchronously inside [emit];
      flows are sequential (no interleaving at [await]);
    - the store answers every call, except in the timeout sweeps, where
      a rejected call is an input of the model ([storeFails]). *)

From Stdlib Require Import ZArith String Ascii List Lia Bool Sorted.
From stdpp Require Import base option list gmap sets strings.

Local Open Scope string_scope.
Local Open Scope list_scope.
Local Open Scope Z_scope.

(** ** JavaScript string operations on ASCII text *)

Module Text.

(** [c.toLowerCase()] for one code unit: [A-Z] is shifted to [a-z]. *)
Definition lowerChar (c : ascii) : ascii :=
  let n := nat_of_ascii c in
  if ((65 <=? n)%nat && (n <=? 90)%nat)%bool then ascii_of_nat (n + 32) else c.

(** [s.toLowerCase()]. *)
Fixpoint toLowerCase (s : string) : string :=
  match s with
  | EmptyString => EmptyString
  | String c s' => String (lowerChar c) (toLowerCase s')
  end.

(** The class [\s] restricted to ASCII: TAB, LF, VT, FF, CR and SPACE. *)
Definition isSpace (c : ascii) : bool :=
  let n := nat_of_ascii c in
  ((9 <=? n)%nat && (n <=? 13)%nat)%bool || (n =? 32)%nat.

(** Reverse of a string, used for the accumulator of the splitter. *)
Fixpoint revOnto (s acc : string) : string :=
  match s with
  | EmptyString => acc
  | String c s' => revOnto s' (String c acc)
  end.

(** [s.split(/\s+/)]: [cur] is the current piece, reversed; [inWs]
    tells that the previous code unit belonged to a separator run.  A
    separator at either end of the text yields an empty piece there,
    and the empty text yields one empty piece, as in JavaScript. *)
Fixpoint splitGo (s cur : string) (inWs : bool) : list string :=
  match s with
  | EmptyString => [revOnto cur EmptyString]
  | String c s' =>
      if isSpace c then
        if inWs then splitGo s' cur true
        else revOnto cur EmptyString :: splitGo s' EmptyString true
      else splitGo s' (String c cur) false
  end.

Definition splitWs (s : string) : list string := splitGo s EmptyString false.

(** [s.includes(sub)]. *)
Fixpoint includes (s sub : string) : bool :=
  String.prefix sub s ||
  match s with
  | EmptyString => false
  | String _ s' => includes s' sub
  end.

(** [s.trim()]. *)
Fixpoint trimStart (s : string) : string :=
  match s with
  | EmptyString => EmptyString
  | String c s' => if isSpace c then trimStart s' else s
  end.

Definition trim (s : string) : string :=
  revOnto (trimStart (revOnto (trimStart s) EmptyString)) EmptyString.

(** JavaScript truthiness of a string: only the empty string is falsy. *)
Definition truthy (s : string) : bool :=
  match s with EmptyString => false | _ => true end.

(** [s.startsWith(p)] and the [replace] of a leading ['caller-']. *)
Fixpoint dropPrefix (p s : string) : option string :=
  match p, s with
  | EmptyString, _ => Some s
  | String a p', String b s' => if Ascii.eqb a b then dropPrefix p' s' else None
  | String _ _, EmptyString => None
  end.

End Text.

(** ** The knowledge base *)

(** A row of the [KnowledgeBaseEntry] table. *)
Record KnowledgeBaseEntry := mkEntry {
  question : string;
  answer : string;
  source : string
}.

Module Knowledge.

(** [text.split(/\s+/).filter(word => word.length > 3)]. *)
Definition keywordsOf (text : string) : list string :=
  List.filter (fun word => (3 <? String.length word)%nat) (Text.splitWs text).

(** [entryKeywords.some(k => k.includes(keyword) || keyword.includes(k))]. *)
Definition overlaps (entryKeywords : list string) (keyword : string) : bool :=
  existsb (fun entryKeyword =>
             Text.includes entryKeyword keyword || Text.includes keyword entryKeyword)
          entryKeywords.

(** [Math.ceil(n * 0.5)] for a length [n]. *)
Definition ceilHalf (n : nat) : nat := Nat.div2 (n + 1).

(** The threshold test of one entry:
    [matchingKeywords.length >= Math.ceil(keywords.length * 0.5)]. *)
Definition enoughOverlap (keywords : list string) (entryQuestion : string) : bool :=
  let entryKeywords := keywordsOf entryQuestion in
  let matchingKeywords := List.filter (overlaps entryKeywords) keywords in
  (ceilHalf (length keywords) <=? length matchingKeywords)%nat.

(** The loop of [findSimilarQuestion] over the fetched entries. *)
Fixpoint scanEntries (messageLower : string) (keywords : list string)
    (entries : list KnowledgeBaseEntry) : option string :=
  match entries with
  | [] => None
  | entry :: rest =>
      let entryQuestion := Text.toLowerCase (question entry) in
      if String.eqb entryQuestion messageLower then Some (answer entry)
      else if enoughOverlap keywords entryQuestion then Some (answer entry)
      else scanEntries messageLower keywords rest
  end.

(** [AgentService.findSimilarQuestion]. *)
Definition findSimilarQuestion (entries : list KnowledgeBaseEntry) (message : string)
    : option string :=
  let messageLower := Text.toLowerCase message in
  scanEntries messageLower (keywordsOf messageLower) entries.

(** [AgentService.loadKnowledgeBase]: later rows overwrite earlier ones
    that share a lower-cased question. *)
Definition loadKnowledgeBase (entries : list KnowledgeBaseEntry) : gmap string string :=
  fold_left (fun kb entry => <[Text.toLowerCase (question entry) := answer entry]> kb)
            entries ∅.

(** The knowledge stage of [AgentService.handleMessage]: the in-memory
    map first, then [findSimilarQuestion], whose answer is remembered
    under the lower-cased message.  Both tests are JavaScript
    truthiness tests, so an empty answer counts as no answer. *)
Definition knowledgeStage (knowledgeBase : gmap string string)
    (entries : list KnowledgeBaseEntry) (message : string)
    : gmap string string * option string :=
  let fromStore :=
    match findSimilarQuestion entries message with
    | Some dbAnswer =>
        if Text.truthy dbAnswer
        then (<[Text.toLowerCase message := dbAnswer]> knowledgeBase, Some dbAnswer)
        else (knowledgeBase, None)
    | None => (knowledgeBase, None)
    end in
  match knowledgeBase !! Text.toLowerCase message with
  | Some a => if Text.truthy a then (knowledgeBase, Some a) else fromStore
  | None => fromStore
  end.

End Knowledge.

(** ** The help-request table, the in-process state and the event bus *)

Inductive HelpRequestStatus := pending | resolved | unresolved.

#[global] Instance HelpRequestStatus_eq_dec : EqDecision HelpRequestStatus.
Proof. solve_decision. Defined.

(** A row of the [HelpRequest] table.  Its primary key is its position
    in the table; [hrQuestion] is the column [question]. *)
Record HelpRequest := mkHelpRequest {
  hrQuestion : string;
  callerId : string;
  status : HelpRequestStatus;
  createdAt : Z;
  resolvedAt : option Z;
  supervisorResponse : option string;
  knowledgeBaseEntryId : option nat
}.

(** The payloads that travel on the event bus. *)
Inductive Event :=
| HELP_REQUEST_CREATED (id : nat) (question callerId : string)
| HELP_REQUEST_RESOLVED (id : nat) (question callerId answer : string)
| HELP_REQUEST_EXPIRED (id : nat) (question callerId : string)
| KNOWLEDGE_BASE_UPDATED (question answer source : string)
| CALLER_MESSAGE_RECEIVED (roomName callerId message : string)
| SUPERVISOR_RESPONSE_SENT (helpRequestId : nat) (callerId response roomName : string).

(** The store and the module-level variables of the services.
    [emitted] and [published] log, oldest first, the events put on the
    bus and the calls of [publishDataToRoom] (room and payload). *)
Record State := mkState {
  helpRequests : list HelpRequest;
  knowledgeBaseEntries : list KnowledgeBaseEntry;
  knowledgeBase : gmap string string;
  supervisorResponseCache : gmap string (gmap nat Z);
  sentSupervisorResponses : gset nat;
  responseCache : gmap string (string * Z);
  emitted : list Event;
  published : list (string * string)
}.

Definition withHelpRequests (v : list HelpRequest) (s : State) : State :=
  mkState v (knowledgeBaseEntries s) (knowledgeBase s) (supervisorResponseCache s)
          (sentSupervisorResponses s) (responseCache s) (emitted s) (published s).
Definition withKnowledgeBaseEntries (v : list KnowledgeBaseEntry) (s : State) : State :=
  mkState (helpRequests s) v (knowledgeBase s) (supervisorResponseCache s)
          (sentSupervisorResponses s) (responseCache s) (emitted s) (published s).
Definition withKnowledgeBase (v : gmap string string) (s : State) : State :=
  mkState (helpRequests s) (knowledgeBaseEntries s) v (supervisorResponseCache s)
          (sentSupervisorResponses s) (responseCache s) (emitted s) (published s).
Definition withSupervisorResponseCache (v : gmap string (gmap nat Z)) (s : State) : State :=
  mkState (helpRequests s) (knowledgeBaseEntries s) (knowledgeBase s) v
          (sentSupervisorResponses s) (responseCache s) (emitted s) (published s).
Definition withSentSupervisorResponses (v : gset nat) (s : State) : State :=
  mkState (helpRequests s) (knowledgeBaseEntries s) (knowledgeBase s)
          (supervisorResponseCache s) v (responseCache s) (emitted s) (published s).
Definition withResponseCache (v : gmap string (string * Z)) (s : State) : State :=
  mkState (helpRequests s) (knowledgeBaseEntries s) (knowledgeBase s)
          (supervisorResponseCache s) (sentSupervisorResponses s) v (emitted s) (published s).
Definition withEmitted (v : list Event) (s : State) : State :=
  mkState (helpRequests s) (knowledgeBaseEntries s) (knowledgeBase s)
          (supervisorResponseCache s) (sentSupervisorResponses s) (responseCache s) v
          (published s).
Definition withPublished (v : list (string * string)) (s : State) : State :=
  mkState (helpRequests s) (knowledgeBaseEntries s) (knowledgeBase s)
          (supervisorResponseCache s) (sentSupervisorResponses s) (responseCache s)
          (emitted s) v.

Definition emptyState : State := mkState [] [] ∅ ∅ ∅ ∅ [] [].

(** Application constants ([utils/constants]). *)
Module Constants.
Definition ONE_MINUTE : Z := 60 * 1000.
Definition TEN_MINUTES : Z := 10 * 60 * 1000.
Definition THIRTY_MINUTES : Z := 30 * 60 * 1000.
Definition ROOM_PREFIX : string := "call-".
Definition SUPERVISOR_RESPONSE : string := "I've consulted with my supervisor and they say: ".
Definition CHECKING_WITH_SUPERVISOR : string := "Let me check with my supervisor about ".
Definition WAITING_FOR_SUPERVISOR : string :=
  "I'm still waiting for my supervisor to answer your question. I'll let you know as soon as I hear back.".
Definition NO_SUPERVISOR_RESPONSE : string := "I haven't received any supervisor responses yet.".
Definition CHECK_SUPERVISOR_RESPONSES : string := "__CHECK_SUPERVISOR_RESPONSES__".
End Constants.

(** *** [db-update] helpers *)

(** [getCallerId]: [helpRequest.callerId || 'unknown']. *)
Definition getCallerId (helpRequest : HelpRequest) : string :=
  if Text.truthy (callerId helpRequest) then callerId helpRequest else "unknown".

(** [createHelpRequestData]; [createdAt] is the column default. *)
Definition createHelpRequestData (now : Z) (question callerId : string) : HelpRequest :=
  mkHelpRequest question (Text.trim callerId) pending now None None None.

(** Rows paired with their keys, in table order. *)
Definition rowsOf (s : State) : list (nat * HelpRequest) :=
  imap (fun id row => (id, row)) (helpRequests s).

(** [a] sorts strictly before [b] under [ORDER BY "resolvedAt" DESC];
    the store is PostgreSQL, where NULL sorts first in descending order. *)
Definition descBefore (a b : option Z) : bool :=
  match a, b with
  | None, Some _ => true
  | Some x, Some y => y <? x
  | _, None => false
  end.

(** First row of a result ordered by [resolvedAt] descending; among
    rows that tie, the earliest in table order. *)
Fixpoint firstDesc (rows : list (nat * HelpRequest)) : option (nat * HelpRequest) :=
  match rows with
  | [] => None
  | x :: rest =>
      match firstDesc rest with
      | Some b => if descBefore (resolvedAt (snd b)) (resolvedAt (snd x)) then Some b else Some x
      | None => Some x
      end
  end.

(** The common [where] clause of the poll paths:
    [{ callerId, status: 'resolved', supervisorResponse: { not: null } }]. *)
Definition isResolvedFor (caller : string) (row : HelpRequest) : bool :=
  bool_decide (callerId row = caller) && bool_decide (status row = resolved)
  && bool_decide (supervisorResponse row <> None).

(** The optional lower bound [resolvedAt: { gte: since }] added to it. *)
Definition resolvedSince (caller : string) (since : option Z) (x : nat * HelpRequest) : bool :=
  isResolvedFor caller (snd x) &&
  match since, resolvedAt (snd x) with
  | None, _ => true
  | Some cutoff, Some t => cutoff <=? t
  | Some _, None => false
  end.

(** [findFirst({ where: {...}, orderBy: { resolvedAt: 'desc' } })]. *)
Definition findFirstResolved (caller : string) (since : option Z) (s : State)
    : option (nat * HelpRequest) :=
  firstDesc (List.filter (resolvedSince caller since) (rowsOf s)).

(** [{ callerId, status: 'pending', question }]. *)
Definition isPendingFor (caller question : string) (x : nat * HelpRequest) : bool :=
  bool_decide (callerId (snd x) = caller) && bool_decide (status (snd x) = pending)
  && bool_decide (hrQuestion (snd x) = question).

(** [findFirst({ where: { callerId, status: 'pending', question } })]. *)
Definition findPending (caller question : string) (s : State) : option (nat * HelpRequest) :=
  List.find (isPendingFor caller question) (rowsOf s).

(** [eventBus.emit] for the events whose listeners only log. *)
Definition emitLog (e : Event) (s : State) : State := withEmitted (emitted s ++ [e]) s.

(** ** The delivery ledger of the agent service *)

Module Ledger.

(** [AgentService.hasSentSupervisorResponse]. *)
Definition hasSentSupervisorResponse (callerId : string) (responseId : nat) (s : State) : bool :=
  match supervisorResponseCache s !! callerId with
  | None => false
  | Some responses => bool_decide (is_Some (responses !! responseId))
  end.

(** [AgentService.markSupervisorResponseSent]. *)
Definition markSupervisorResponseSent (now : Z) (callerId : string) (responseId : nat)
    (s : State) : State :=
  let responses := default ∅ (supervisorResponseCache s !! callerId) in
  withSupervisorResponseCache
    (<[callerId := <[responseId := now]> responses]> (supervisorResponseCache s)) s.

(** The five-minute interval that forgets marks older than thirty
    minutes and drops the callers left without marks. *)
Definition cleanup (now : Z) (s : State) : State :=
  withSupervisorResponseCache
    (omap (fun responses : gmap nat Z =>
             let kept := filter (fun kv => ~ (now - snd kv > 30 * 60 * 1000)) responses in
             if decide (size kept = 0%nat) then None else Some kept)
          (supervisorResponseCache s)) s.

(** [AgentService.handleSupervisorResponse], the listener of
    [SUPERVISOR_RESPONSE_SENT].  Every instance of the agent service
    registers it; they write the same mark into the shared ledger, so one
    application stands for all of them. *)
Definition handleSupervisorResponse (now : Z) (helpRequestId : nat) (callerId : string)
    (s : State) : State :=
  markSupervisorResponseSent now callerId helpRequestId s.

End Ledger.

(** ** The supervisor service and the help-request model *)

Module Supervisor.

(** [publishDataToRoom] is an external collaborator: [publish room
    payload] tells whether the push succeeds.  A push that throws is
    caught and logged by its callers, which then behave as for [false]. *)
Definition Publisher := string -> string -> bool.

(** [SupervisorService.handleHelpRequestResolved], the listener of
    [HELP_REQUEST_RESOLVED]. *)
Definition handleHelpRequestResolved (now : Z) (publish : Publisher)
    (id : nat) (callerId answer : string) (s : State) : State :=
  if decide (id ∈ sentSupervisorResponses s) then s
  else if Text.truthy callerId && negb (String.eqb callerId "unknown") then
    let roomName := String.append "call-" callerId in
    let supervisorResponse :=
      String.append "I've consulted with my supervisor and they say: " answer in
    let s1 := withSentSupervisorResponses ({[id]} ∪ sentSupervisorResponses s) s in
    let s2 := withPublished (published s1 ++ [(roomName, supervisorResponse)]) s1 in
    if publish roomName supervisorResponse then
      Ledger.handleSupervisorResponse now id callerId
        (emitLog (SUPERVISOR_RESPONSE_SENT id callerId answer roomName) s2)
    else s2
  else s.

(** [eventBus.emit(HELP_REQUEST_RESOLVED, ...)].  Each of the two route
    modules constructs its own [SupervisorService], so the listener is
    registered twice on the bus. *)
Definition emitResolved (now : Z) (publish : Publisher)
    (id : nat) (question callerId answer : string) (s : State) : State :=
  let s1 := emitLog (HELP_REQUEST_RESOLVED id question callerId answer) s in
  let s2 := handleHelpRequestResolved now publish id callerId answer s1 in
  handleHelpRequestResolved now publish id callerId answer s2.

(** The [data] argument of [helpRequestModel.update]: the columns to set. *)
Record UpdateData := mkUpdate {
  newStatus : option HelpRequestStatus;
  newResolvedAt : option Z;
  newSupervisorResponse : option string;
  newKnowledgeBaseEntryId : option nat
}.

Definition applyUpdate (data : UpdateData) (row : HelpRequest) : HelpRequest :=
  mkHelpRequest (hrQuestion row) (callerId row)
    (default (status row) (newStatus data))
    (createdAt row)
    (match newResolvedAt data with Some t => Some t | None => resolvedAt row end)
    (match newSupervisorResponse data with Some a => Some a | None => supervisorResponse row end)
    (match newKnowledgeBaseEntryId data with Some k => Some k | None => knowledgeBaseEntryId row end).

(** [helpRequestModel.create]. *)
Definition create (now : Z) (question callerId : string) (s : State) : State * nat :=
  let id := length (helpRequests s) in
  let s1 := withHelpRequests (helpRequests s ++ [createHelpRequestData now question callerId]) s in
  (emitLog (HELP_REQUEST_CREATED id question callerId) s1, id).

(** [helpRequestModel.getById]. *)
Definition getById (id : nat) (s : State) : option HelpRequest := helpRequests s !! id.

(** [helpRequestModel.update]; [None] stands for the rejection of the
    store when no row has the key. *)
Definition update (now : Z) (publish : Publisher) (id : nat) (data : UpdateData) (s : State)
    : State * option HelpRequest :=
  match helpRequests s !! id with
  | None => (s, None)
  | Some row =>
      let updatedRequest := applyUpdate data row in
      let s1 := withHelpRequests (<[id := updatedRequest]> (helpRequests s)) s in
      let s2 :=
        match newStatus data, newSupervisorResponse data with
        | Some resolved, Some a =>
            if Text.truthy a
            then emitResolved now publish id (hrQuestion updatedRequest)
                              (getCallerId updatedRequest) a s1
            else s1
        | Some unresolved, _ =>
            emitLog (HELP_REQUEST_EXPIRED id (hrQuestion updatedRequest)
                                          (getCallerId updatedRequest)) s1
        | _, _ => s1
        end in
      (s2, Some updatedRequest)
  end.

(** [helpRequestModel.markAsExpired]. *)
Definition markAsExpired (now : Z) (id : nat) (s : State) : State * option HelpRequest :=
  match helpRequests s !! id with
  | None => (s, None)
  | Some request =>
      if decide (status request = pending) then
        let updatedRequest :=
          applyUpdate (mkUpdate (Some unresolved) (Some now) None None) request in
        let s1 := withHelpRequests (<[id := updatedRequest]> (helpRequests s)) s in
        (emitLog (HELP_REQUEST_EXPIRED id (hrQuestion updatedRequest)
                                       (getCallerId updatedRequest)) s1,
         Some updatedRequest)
      else (s, None)
  end.

(** What [SupervisorService.resolveHelpRequest] gives back: one of its
    three return values, or one of its two thrown errors. *)
Inductive ResolveResult :=
| alreadyProcessed
| alreadyResolved
| resolvedNow (updated : HelpRequest)
| requestNotFound
| failedToUpdate.

(** [SupervisorService.resolveHelpRequest]. *)
Definition resolveHelpRequest (now : Z) (publish : Publisher) (id : nat) (answer : string)
    (s : State) : State * ResolveResult :=
  if decide (id ∈ sentSupervisorResponses s) then (s, alreadyProcessed)
  else
    match getById id s with
    | None => (s, requestNotFound)
    | Some request =>
        if decide (status request = resolved) then
          (withSentSupervisorResponses ({[id]} ∪ sentSupervisorResponses s) s, alreadyResolved)
        else
          match update now publish id (mkUpdate (Some resolved) (Some now) (Some answer) None) s with
          | (s1, None) => (s1, failedToUpdate)
          | (s1, Some updated) =>
              let kbEntryId := length (knowledgeBaseEntries s1) in
              let s2 := withKnowledgeBaseEntries
                          (knowledgeBaseEntries s1
                             ++ [mkEntry (hrQuestion request) answer "supervisor"]) s1 in
              let s3 := fst (update now publish id (mkUpdate None None None (Some kbEntryId)) s2) in
              (s3, resolvedNow updated)
          end
    end.

(** [SupervisorService.createHelpRequest]. *)
Definition createHelpRequest (now : Z) (question callerId : string) (s : State) : State * nat :=
  create now question (Text.trim callerId) s.

(** The replies of [POST /help-requests/:id/resolve]. *)
Inductive ResolveResponse :=
| missingAnswer
| badRequestAlreadyResolved
| resolveFailed
| resolveJson (result : ResolveResult) (notification_sent : option bool).

(** [POST /help-requests/:id/resolve]. *)
Definition resolveRoute (now : Z) (publish : Publisher) (id : nat) (answer : string)
    (s : State) : State * ResolveResponse :=
  if negb (Text.truthy answer) then (s, missingAnswer)
  else
    let existingRequest := helpRequests s !! id in
    match existingRequest with
    | Some existing =>
        if decide (status existing = resolved) then (s, badRequestAlreadyResolved)
        else
          match resolveHelpRequest now publish id answer s with
          | (s1, requestNotFound) => (s1, resolveFailed)
          | (s1, failedToUpdate) => (s1, resolveFailed)
          | (s1, result) =>
              let callerId := getCallerId existing in
              if Text.truthy callerId && negb (String.eqb callerId "unknown") then
                let roomName := String.append Constants.ROOM_PREFIX callerId in
                let supervisorResponse := String.append Constants.SUPERVISOR_RESPONSE answer in
                let s2 := withResponseCache (<[callerId := (answer, now)]> (responseCache s1)) s1 in
                let s3 := withPublished (published s2 ++ [(roomName, supervisorResponse)]) s2 in
                (s3, resolveJson result (Some (publish roomName supervisorResponse)))
              else (s1, resolveJson result None)
          end
    | None =>
        match resolveHelpRequest now publish id answer s with
        | (s1, requestNotFound) => (s1, resolveFailed)
        | (s1, failedToUpdate) => (s1, resolveFailed)
        | (s1, result) => (s1, resolveJson result None)
        end
    end.




End Supervisor.

(** ** The agent service *)

Module Agent.

(** What [handleMessage] answers, one constructor per [return]. *)
Inductive Reply :=
| supervisorSays (responseId : nat) (supervisorResponse : string)
| alreadySentMessage
| alreadySentResponse
| noSupervisorResponse
| knowledgeAnswer (answer : string)
| waitingForSupervisor
| checkingWithSupervisor (message : string)
| dontKnow.

(** The text of each reply. *)
Definition render (r : Reply) : string :=
  match r with
  | supervisorSays _ response =>
      String.append "I've consulted with my supervisor and they say: " response
  | alreadySentMessage =>
      "Yes, your supervisor has responded. The message has already been sent to you."
  | alreadySentResponse =>
      "Yes, your supervisor has responded. I've already sent you their response."
  | noSupervisorResponse => Constants.NO_SUPERVISOR_RESPONSE
  | knowledgeAnswer a => a
  | waitingForSupervisor => Constants.WAITING_FOR_SUPERVISOR
  | checkingWithSupervisor message =>
      String.append Constants.CHECKING_WITH_SUPERVISOR
        (String.append (String (ascii_of_nat 34) message)
           (String (ascii_of_nat 34) " and get back to you."))
  | dontKnow => "I'm sorry, I don't know the answer to that. Please try asking something else."
  end.

(** [isSpecialMessage]. *)
Definition isSpecialMessage (message : string) : bool :=
  if negb (Text.truthy message) then false
  else
    String.eqb message "__CHECK_SUPERVISOR_RESPONSES__"
    || String.eqb message "Has my supervisor replied with an answer yet?"
    || String.eqb message "What did my supervisor say?"
    || String.eqb message "What was the supervisor's response?"
    || String.eqb message "Did the supervisor answer my question?"
    || (Text.includes (Text.toLowerCase message) "supervisor"
        && (Text.includes (Text.toLowerCase message) "replied"
            || Text.includes (Text.toLowerCase message) "responded"
            || Text.includes (Text.toLowerCase message) "answer")).

(** The test of the second branch of [handleMessage]. *)
Definition asksForSupervisorResponse (message : string) : bool :=
  Text.includes (Text.toLowerCase message) "has my supervisor responded"
  || Text.includes (Text.toLowerCase message) "what did my supervisor say"
  || Text.includes (Text.toLowerCase message) "any response from supervisor".

(** [formatCallerId]. *)
Definition formatCallerId (callerId : string) : string := Text.trim callerId.

(** The body shared by the first two branches of [handleMessage]: the
    latest resolved request of the caller, if it was resolved less than
    ten minutes ago, is delivered once and confirmed afterwards.
    [None] means that the branch falls out of its [if]s. *)
Definition directQuery (now : Z) (callerId : string) (confirmation : Reply) (s : State)
    : option (State * Reply) :=
  match findFirstResolved (formatCallerId callerId) None s with
  | Some (responseId, helpRequest) =>
      match supervisorResponse helpRequest with
      | Some response =>
          if Text.truthy response then
            let timeSinceResponse :=
              now - match resolvedAt helpRequest with Some t => t | None => 0 end in
            if timeSinceResponse <? 10 * 60 * 1000 then
              if Ledger.hasSentSupervisorResponse callerId responseId s
              then Some (s, confirmation)
              else Some (Ledger.markSupervisorResponseSent now callerId responseId s,
                         supervisorSays responseId response)
            else None
          else None
      | None => None
      end
  | None => None
  end.

(** The third branch: a request of the caller resolved within the last
    minute and not delivered yet. *)
Definition ambientCheck (now : Z) (callerId : string) (s : State) : option (State * Reply) :=
  match findFirstResolved (formatCallerId callerId) (Some (now - 60 * 1000)) s with
  | Some (responseId, recentResponse) =>
      match supervisorResponse recentResponse with
      | Some response =>
          if Text.truthy response then
            if negb (Ledger.hasSentSupervisorResponse callerId responseId s)
            then Some (Ledger.markSupervisorResponseSent now callerId responseId s,
                       supervisorSays responseId response)
            else None
          else None
      | None => None
      end
  | None => None
  end.

(** The regular flow: the knowledge stage, then the escalation.
    [caller] is [Some c] when [callerId] is a non-empty string. *)
Definition regularFlow (now : Z) (message : string) (caller : option string) (s : State)
    : State * Reply :=
  let '(kb, found) :=
    Knowledge.knowledgeStage (knowledgeBase s) (knowledgeBaseEntries s) message in
  let s1 := withKnowledgeBase kb s in
  match found with
  | Some a => (s1, knowledgeAnswer a)
  | None =>
      match caller with
      | Some c =>
          if negb (isSpecialMessage message) then
            match findPending (formatCallerId c) message s1 with
            | Some _ => (s1, waitingForSupervisor)
            | None =>
                (withHelpRequests
                   (helpRequests s1 ++ [createHelpRequestData now message (formatCallerId c)]) s1,
                 checkingWithSupervisor message)
            end
          else (s1, waitingForSupervisor)
      | None => (s1, dontKnow)
      end
  end.

(** [AgentService.handleMessage]; [callerId] is optional. *)
Definition handleMessage (now : Z) (roomName message : string) (callerId : option string)
    (s : State) : State * Reply :=
  let caller :=
    match callerId with
    | Some c => if Text.truthy c then Some c else None
    | None => None
    end in
  match caller with
  | Some c =>
      let s0 := emitLog (CALLER_MESSAGE_RECEIVED roomName c message) s in
      if String.eqb message Constants.CHECK_SUPERVISOR_RESPONSES then
        match directQuery now c alreadySentMessage s0 with
        | Some out => out
        | None => (s0, noSupervisorResponse)
        end
      else if asksForSupervisorResponse message then
        match directQuery now c alreadySentResponse s0 with
        | Some out => out
        | None => (s0, noSupervisorResponse)
        end
      else
        match ambientCheck now c s0 with
        | Some out => out
        | None => regularFlow now message (Some c) s0
        end
  | None => regularFlow now message None s
  end.

End Agent.

(** ** The timeout sweeps *)

Module Timeout.

Definition HELP_REQUEST_TIMEOUT_MINUTES : Z := 30.
Definition DEFAULT_TIMEOUT_MINUTES : Z := 5.

(** [findMany({ where: { status: 'pending', createdAt: { lt: cutoff } } })]. *)
Definition findStale (cutoff : Z) (s : State) : list (nat * HelpRequest) :=
  List.filter (fun x => bool_decide (status (snd x) = pending) && (createdAt (snd x) <? cutoff))
              (rowsOf s).

(** The loop of [checkAndProcessExpiredRequests].  [storeFails id]
    tells that the store rejects the calls made for request [id]; the
    rejection is thrown out of the loop to the [catch] around it.  The
    flag is [true] when the loop ran to its end. *)
Fixpoint expireEach (storeFails : nat -> bool) (now : Z) (requests : list (nat * HelpRequest))
    (s : State) : State * bool :=
  match requests with
  | [] => (s, true)
  | request :: rest =>
      if storeFails (fst request) then (s, false)
      else expireEach storeFails now rest (fst (Supervisor.markAsExpired now (fst request) s))
  end.

(** [checkAndProcessExpiredRequests], run by the five-minute cron job.
    The flag is [false] when the [catch] logged an error. *)
Definition checkAndProcessExpiredRequests (storeFails : nat -> bool) (now : Z) (s : State)
    : State * bool :=
  let pendingRequests := findStale (now - HELP_REQUEST_TIMEOUT_MINUTES * 60 * 1000) s in
  expireEach storeFails now pendingRequests s.

(** [parseInt(process.env.HELP_REQUEST_TIMEOUT_MINUTES || '', 10) ||
    DEFAULT_TIMEOUT_MINUTES]; [None] is [NaN]. *)
Definition timeoutMinutesOf (configured : option Z) : Z :=
  match configured with
  | Some n => if n =? 0 then DEFAULT_TIMEOUT_MINUTES else n
  | None => DEFAULT_TIMEOUT_MINUTES
  end.

(** The loop of the interval of [startTimeoutWorker]: a direct update
    of each fetched row, without a second look at its status. *)
Fixpoint markEachUnresolved (storeFails : nat -> bool) (now : Z)
    (requests : list (nat * HelpRequest)) (s : State) : State * bool :=
  match requests with
  | [] => (s, true)
  | req :: rest =>
      if storeFails (fst req) then (s, false)
      else
        let rows :=
          match helpRequests s !! fst req with
          | Some row =>
              <[fst req := Supervisor.applyUpdate
                             (Supervisor.mkUpdate (Some unresolved) (Some now) None None) row]>
                (helpRequests s)
          | None => helpRequests s
          end in
        markEachUnresolved storeFails now rest (withHelpRequests rows s)
  end.

(** One tick of the interval of [startTimeoutWorker]. *)
Definition timeoutWorkerTick (configured : option Z) (storeFails : nat -> bool) (now : Z)
    (s : State) : State * bool :=
  let cutoff := now - timeoutMinutesOf configured * 60 * 1000 in
  markEachUnresolved storeFails now (findStale cutoff s) s.

End Timeout.

(** ** Vocabulary of the statements *)

(** A text that does not start with white space. *)
Definition startsClean (s : string) : Prop :=
  match s with
  | EmptyString => True
  | String c _ => Text.isSpace c = false
  end.

(** The two ways in which an entry qualifies for a message. *)
Definition exactMatch (message : string) (entry : KnowledgeBaseEntry) : Prop :=
  Text.toLowerCase (question entry) = Text.toLowerCase message.

(** The number of incoming tokens that contain, or are contained in,
    some token of the stored question. *)
Definition overlapCount (message : string) (entry : KnowledgeBaseEntry) : nat :=
  length (List.filter
            (Knowledge.overlaps (Knowledge.keywordsOf (Text.toLowerCase (question entry))))
            (Knowledge.keywordsOf (Text.toLowerCase message))).

(** The overlap count reaches half of the incoming token count,
    rounded up. *)
Definition fuzzyMatch (message : string) (entry : KnowledgeBaseEntry) : Prop :=
  (length (Knowledge.keywordsOf (Text.toLowerCase message)) <= 2 * overlapCount message entry)%nat.

Definition qualifies (message : string) (entry : KnowledgeBaseEntry) : Prop :=
  exactMatch message entry \/ fuzzyMatch message entry.

#[global] Instance qualifies_dec message entry : Decision (qualifies message entry).
Proof. unfold qualifies, exactMatch, fuzzyMatch. apply _. Defined.

(** The row left by an expiry at instant [now]. *)
Definition expiredAt (now : Z) (row : HelpRequest) : HelpRequest :=
  Supervisor.applyUpdate (Supervisor.mkUpdate (Some unresolved) (Some now) None None) row.

(** The row left by a successful [resolveHelpRequest]. *)
Definition resolvedWith (now : Z) (answer : string) (kbEntryId : nat) (row : HelpRequest)
    : HelpRequest :=
  Supervisor.applyUpdate (Supervisor.mkUpdate None None None (Some kbEntryId))
    (Supervisor.applyUpdate
       (Supervisor.mkUpdate (Some resolved) (Some now) (Some answer) None) row).

(** The number of pending requests of a requester for a question. *)
Definition pendingCount (caller question : string) (s : State) : nat :=
  length (List.filter (isPendingFor caller question) (rowsOf s)).

(** The instant at which the ledger recorded the delivery of request
    [id] to requester [c], if it did. *)
Definition markOf (c : string) (id : nat) (s : State) : option Z :=
  match supervisorResponseCache s !! c with
  | Some responses => responses !! id
  | None => None
  end.

(** The instant used by the poll paths for the age of an answer:
    [resolvedAt ? new Date(resolvedAt).getTime() : 0]. *)
Definition resolvedTime (row : HelpRequest) : Z :=
  match resolvedAt row with Some t => t | None => 0 end.

(** Polls of one requester through [handleMessage], interleaved with
    the periodic cleanup of the ledger. *)
Inductive PollStep :=
| pollMessage (roomName message : string)
| pollCleanup.

(** How often a run of polls relays the full answer of request [id]
    to requester [c]. *)
Fixpoint relayCount (c : string) (id : nat) (steps : list (Z * PollStep)) (s : State) : nat :=
  match steps with
  | [] => 0
  | (now, pollMessage roomName message) :: rest =>
      let out := Agent.handleMessage now roomName message (Some c) s in
      (match snd out with
       | Agent.supervisorSays responseId _ => if decide (responseId = id) then 1 else 0
       | _ => 0
       end + relayCount c id rest (fst out))%nat
  | (now, pollCleanup) :: rest => relayCount c id rest (Ledger.cleanup now s)
  end.




(** ** Sequences of operations on the table *)

(** The operations that write the [HelpRequest] table. *)
Inductive Operation :=
| opCreate (question callerId : string)
| opMessage (roomName message : string) (callerId : option string)
| opResolveRoute (publish : Supervisor.Publisher) (id : nat) (answer : string)
| opResolve (publish : Supervisor.Publisher) (id : nat) (answer : string)
| opExpire (id : nat)
| opCronSweep (storeFails : nat -> bool)
| opWorkerTick (configured : option Z) (storeFails : nat -> bool).

Definition step (now : Z) (op : Operation) (s : State) : State :=
  match op with
  | opCreate question callerId => fst (Supervisor.createHelpRequest now question callerId s)
  | opMessage roomName message callerId => fst (Agent.handleMessage now roomName message callerId s)
  | opResolveRoute publish id answer => fst (Supervisor.resolveRoute now publish id answer s)
  | opResolve publish id answer => fst (Supervisor.resolveHelpRequest now publish id answer s)
  | opExpire id => fst (Supervisor.markAsExpired now id s)
  | opCronSweep storeFails => fst (Timeout.checkAndProcessExpiredRequests storeFails now s)
  | opWorkerTick configured storeFails => fst (Timeout.timeoutWorkerTick configured storeFails now s)
  end.

(** A run: each operation with the instant at which it executes. *)
Fixpoint run (ops : list (Z * Operation)) (s : State) : State :=
  match ops with
  | [] => s
  | (now, op) :: rest => run rest (step now op s)
  end.

(** What one operation may do to a row. *)
Inductive rowStep : HelpRequest -> HelpRequest -> Prop :=
| rowStays row : rowStep row row
| rowResolved now answer kbEntryId row :
    status row <> resolved -> rowStep row (resolvedWith now answer kbEntryId row)
| rowExpired now row :
    status row = pending -> rowStep row (expiredAt now row).

(** ** Scenarios *)

Definition alwaysPublished : Supervisor.Publisher := fun _ _ => true.
Definition reliableStore : nat -> bool := fun _ => false.

(** One requester, one open question. *)
Definition permsRequest : HelpRequest :=
  mkHelpRequest "Do you do perms?" "42" pending 1000 None None None.
Definition onePending : State := withHelpRequests [permsRequest] emptyState.

(** The supervisor answers it through the resolve route. *)
Definition afterResolve : State :=
  fst (Supervisor.resolveRoute 5000 alwaysPublished 0 "Yes, $80" onePending).

(** Two curated entries; the second equals the incoming question. *)
Definition ratesAndHours : list KnowledgeBaseEntry :=
  [ mkEntry "What are your rates today" "A1" "manual";
    mkEntry "What are your hours" "A2" "manual" ].

(** Three open questions of the same age. *)
Definition threePending : State :=
  withHelpRequests
    [ mkHelpRequest "q0" "7" pending 0 None None None;
      mkHelpRequest "q1" "8" pending 0 None None None;
      mkHelpRequest "q2" "9" pending 0 None None None ] emptyState.

(** A store that rejects the calls made for request 1. *)
Definition failsOnSecond : nat -> bool := fun id => Nat.eqb id 1.


(** ** Further operations of the backend *)

(** *** [utils/errorHandler] *)

Module ErrorHandler.

Definition isDigit (c : ascii) : bool :=
  let n := nat_of_ascii c in ((48 <=? n)%nat && (n <=? 57)%nat)%bool.

(** The value of the longest prefix of decimal digits, after [acc]. *)
Fixpoint digitsValue (s : string) (acc : Z) : Z :=
  match s with
  | EmptyString => acc
  | String c s' =>
      if isDigit c then digitsValue s' (10 * acc + Z.of_nat (nat_of_ascii c - 48)) else acc
  end.

(** [parseInt(s, 10)]: leading white space, an optional sign, then the
    longest run of digits; [None] is [NaN].  Values are exact integers
    (the source works on doubles, exact below 2^53). *)
Definition parseInt (s : string) : option Z :=
  let t := Text.trimStart s in
  let '(sign, rest) :=
    match t with
    | String c r =>
        if Ascii.eqb c "-"%char then (-1, r)
        else if Ascii.eqb c "+"%char then (1, r)
        else (1, t)
    | EmptyString => (1, t)
    end in
  match rest with
  | String c _ => if isDigit c then Some (sign * digitsValue rest 0) else None
  | EmptyString => None
  end.

(** The outcomes of [validatePagination]: a 400 reply or the values. *)
Inductive Pagination :=
| invalidPage
| invalidLimit
| validPagination (page limit : Z).

(** [validatePagination]; a query parameter is absent ([None]) or a
    string, and the empty string is falsy. *)
Definition validatePagination (page limit : option string) (defaultLimit maxLimit : Z)
    : Pagination :=
  let parsed (q : option string) (fallback : Z) : option Z :=
    match q with
    | Some text => if Text.truthy text then parseInt text else Some fallback
    | None => Some fallback
    end in
  match parsed page 1 with
  | None => invalidPage
  | Some pageNum =>
      if pageNum <? 1 then invalidPage
      else
        match parsed limit defaultLimit with
        | None => invalidLimit
        | Some limitNum =>
            if (limitNum <? 1) || (maxLimit <? limitNum) then invalidLimit
            else validPagination pageNum limitNum
        end
  end.

(** The [pages] field of [createPaginationResponse]:
    [Math.ceil(total / limit)] for a count and a positive limit. *)
Definition pagesOf (total limit : nat) : nat := Nat.div (total + limit - 1) limit.

End ErrorHandler.

(** *** Listings of the help-request table *)

Module Listing.

(** Insertion into a list ordered by [createdAt] descending.  The
    store fixes no order among rows with equal instants; here they stay
    in table order. *)
Fixpoint insertDesc (x : nat * HelpRequest) (rows : list (nat * HelpRequest))
    : list (nat * HelpRequest) :=
  match rows with
  | [] => [x]
  | y :: rest =>
      if createdAt (snd y) <=? createdAt (snd x) then x :: y :: rest
      else y :: insertDesc x rest
  end.

(** [orderBy: { createdAt: 'desc' }]. *)
Definition sortDesc (rows : list (nat * HelpRequest)) : list (nat * HelpRequest) :=
  fold_right insertDesc [] rows.


(** [where: status ? { status } : undefined]. *)
Definition hasStatus (filter : option HelpRequestStatus) (x : nat * HelpRequest) : bool :=
  match filter with
  | Some wanted => bool_decide (status (snd x) = wanted)
  | None => true
  end.

(** [helpRequestModel.getAll] and [SupervisorService.getHelpRequests],
    for a page and a limit that passed [validatePagination]: the page of
    rows and the total count. *)
Definition getAll (filter : option HelpRequestStatus) (page limit : nat) (s : State)
    : list (nat * HelpRequest) * nat :=
  let matching := List.filter (hasStatus filter) (rowsOf s) in
  let skip := ((page - 1) * limit)%nat in
  (firstn limit (skipn skip (sortDesc matching)), length matching).

(** The [status] query parameter of [GET /help-requests]: a value of
    the enumeration, or no filter at all. *)
Definition validStatus (status : option string) : option HelpRequestStatus :=
  match status with
  | Some text =>
      if String.eqb text "pending" then Some pending
      else if String.eqb text "resolved" then Some resolved
      else if String.eqb text "unresolved" then Some unresolved
      else None
  | None => None
  end.

(** [findHelpRequestsByCallerId] of [db-update]; the status, when
    given, is a value of the enumeration. *)
Definition findHelpRequestsByCallerId (caller : string) (wanted : option HelpRequestStatus)
    (s : State) : list (nat * HelpRequest) :=
  sortDesc (List.filter
              (fun x => bool_decide (callerId (snd x) = Text.trim caller) && hasStatus wanted x)
              (rowsOf s)).

(** The reply of [GET /help-requests]: the rows of the page and the
    [pagination] object. *)
Record Page := mkPage {
  pageData : list (nat * HelpRequest);
  pageTotal : nat;
  pageNumber : Z;
  pageLimit : Z;
  pagePages : nat
}.

(** [GET /help-requests] of the supervisor routes, with the defaults
    of [validatePagination] (10 rows, at most 100); [inl] is the 400
    reply. *)
Definition helpRequestsRoute (status page limit : option string) (s : State)
    : ErrorHandler.Pagination + Page :=
  match ErrorHandler.validatePagination page limit 10 100 with
  | ErrorHandler.validPagination pageNum limitNum =>
      let '(requests, total) :=
        getAll (validStatus status) (Z.to_nat pageNum) (Z.to_nat limitNum) s in
      inr (mkPage requests total pageNum limitNum
             (ErrorHandler.pagesOf total (Z.to_nat limitNum)))
  | invalid => inl invalid
  end.

End Listing.

(** *** Polls without a delivery record, and the message filter of the webhook *)

Module Polls.

(** [isPollingMessage] of the application module. *)
Definition isPollingMessage (message : string) : bool :=
  if negb (Text.truthy message) then false
  else if existsb (fun pattern => String.eqb message pattern)
            [ "__CHECK_SUPERVISOR_RESPONSES__";
              "Has my supervisor replied with an answer yet?";
              "What did my supervisor say?";
              "What was the supervisor's response?";
              "Did the supervisor answer my question?" ]
  then true
  else
    let lowerMessage := Text.toLowerCase message in
    Text.includes lowerMessage "supervisor"
    && (Text.includes lowerMessage "replied"
        || Text.includes lowerMessage "responded"
        || Text.includes lowerMessage "answer"
        || Text.includes lowerMessage "response"
        || Text.includes lowerMessage "say"
        || Text.includes lowerMessage "said").

(** The answers of the two polls that keep no delivery record. *)
Inductive PollAnswer :=
| missingParameter
| noResponseFound
| responseFound (response question : string) (resolvedAt : option Z).

(** [if (helpRequest && helpRequest.supervisorResponse)]. *)
Definition foundIn (hit : option (nat * HelpRequest)) : PollAnswer :=
  match hit with
  | Some (_, helpRequest) =>
      match supervisorResponse helpRequest with
      | Some response =>
          if Text.truthy response
          then responseFound response (hrQuestion helpRequest) (resolvedAt helpRequest)
          else noResponseFound
      | None => noResponseFound
      end
  | None => noResponseFound
  end.

(** [POST /supervisor-response] of the agent routes; both fields of
    the body are required, and an empty one counts as missing. *)
Definition agentSupervisorResponse (roomName callerId : option string) (s : State)
    : PollAnswer :=
  match roomName, callerId with
  | Some room, Some caller =>
      if Text.truthy room && Text.truthy caller then
        let actualCallerId := default caller (Text.dropPrefix "caller-" caller) in
        foundIn (findFirstResolved (Text.trim (Text.trim actualCallerId)) None s)
      else missingParameter
  | _, _ => missingParameter
  end.

(** [GET /api/agent/webhook/supervisor-response/:callerId]: only
    responses of the last five minutes. *)
Definition webhookSupervisorResponse (now : Z) (callerId : string) (s : State) : PollAnswer :=
  if Text.truthy callerId then
    foundIn (findFirstResolved (Text.trim callerId) (Some (now - 5 * 60 * 1000)) s)
  else missingParameter.

End Polls.

(** *** More of the agent service *)

Module AgentService.

(** [AgentService.handleCall]: [createRoom] is the external room
    service; [None] is the thrown error.  The tokens it returns come
    from the token service and are not modelled. *)
Definition handleCall (createRoom : string -> bool) (callerId : string) (s : State)
    : option State :=
  let roomName := String.append "call-" callerId in
  if createRoom roomName then
    Some (match supervisorResponseCache s !! callerId with
          | Some _ => s
          | None => withSupervisorResponseCache (<[callerId := ∅]> (supervisorResponseCache s)) s
          end)
  else None.

(** [AgentService.handleKnowledgeBaseUpdate], the listener of
    [KNOWLEDGE_BASE_UPDATED]. *)
Definition handleKnowledgeBaseUpdate (question answer : string) (s : State) : State :=
  withKnowledgeBase (<[Text.toLowerCase question := answer]> (knowledgeBase s)) s.

(** [AgentService.addToKnowledgeBase]: the row, the in-memory entry,
    then the event, whose listener writes the same entry again. *)
Definition addToKnowledgeBase (question answer : string) (s : State) : State :=
  let s1 := withKnowledgeBaseEntries
              (knowledgeBaseEntries s ++ [mkEntry question answer "manual"]) s in
  let s2 := withKnowledgeBase (<[Text.toLowerCase question := answer]> (knowledgeBase s1)) s1 in
  handleKnowledgeBaseUpdate question answer
    (emitLog (KNOWLEDGE_BASE_UPDATED question answer "manual") s2).

End AgentService.

(** *** The report of inactive rooms *)

Module CheckEvents.

(** A row of the [RoomEvent] table, as far as the report reads it. *)
Record RoomEvent := mkRoomEvent {
  roomName : string;
  eventAt : Z
}.

(** [findMany({ where: { createdAt: { gte: now - 1h } } })]; the order
    of the result does not matter to the loop below. *)
Definition recentEvents (now : Z) (events : list RoomEvent) : list RoomEvent :=
  List.filter (fun e => now - 60 * 60 * 1000 <=? eventAt e) events.

(** The loop that fills [roomsWithLastActivity]. *)
Definition roomsWithLastActivity (events : list RoomEvent) : gmap string Z :=
  fold_left
    (fun rooms event =>
       match rooms !! roomName event with
       | Some last => if last <? eventAt event
                      then <[roomName event := eventAt event]> rooms else rooms
       | None => <[roomName event := eventAt event]> rooms
       end)
    events ∅.

(** The rooms reported by [checkInactiveRooms], with their last
    activity. *)
Definition inactiveRooms (now : Z) (events : list RoomEvent) : gmap string Z :=
  filter (fun kv => snd kv < now - 30 * 60 * 1000)
         (roomsWithLastActivity (recentEvents now events)).

End CheckEvents.

(** *** More scenarios *)

(** An open question stored without a requester id. *)
Definition anonymousRequest : HelpRequest :=
  mkHelpRequest "Do you do perms?" "" pending 1000 None None None.
Definition anonymousPending : State := withHelpRequests [anonymousRequest] emptyState.

(** * Properties *)

(** ** Text *)

Section TextFacts.
Import Text.

(** Sanity checks of the string operations against JavaScript. *)
Example splitWs_leading : splitWs "  a" = [""; "a"].
Proof. reflexivity. Qed.

Example splitWs_trailing : splitWs "a " = ["a"; ""].
Proof. reflexivity. Qed.

Example splitWs_empty : splitWs "" = [""].
Proof. reflexivity. Qed.

Example splitWs_words :
  splitWs (String.append "What are" (String (ascii_of_nat 9) " your  hours?"))
  = ["What"; "are"; "your"; "hours?"].
Proof. reflexivity. Qed.

Example toLowerCase_mixed : toLowerCase "What ARE your Hours?" = "what are your hours?".
Proof. reflexivity. Qed.

Example includes_either_way :
  includes "supervisor" "visor" = true /\ includes "visor" "supervisor" = false.
Proof. split; reflexivity. Qed.

Example trim_both_ends : trim "  42 " = "42" /\ trim "  " = "" /\ trim "a b" = "a b".
Proof. repeat split; reflexivity. Qed.






Lemma append_String c a b : String.append (String c a) b = String c (String.append a b).
Proof. reflexivity. Qed.

Lemma append_Empty b : String.append EmptyString b = b.
Proof. reflexivity. Qed.

Lemma prefix_spec p s : String.prefix p s = true <-> exists post, s = String.append p post.
Proof.
  revert s. induction p as [|a p IH]; intros s.
  - split; [intros _; by exists s | by destruct s].
  - destruct s as [|b s]; simpl.
    + split; [done | intros [post H]; discriminate].
    + setoid_rewrite append_String.
      destruct (ascii_dec a b) as [->|Hne].
      * rewrite IH. split; intros [post H]; exists post; congruence.
      * split; [done | intros [post H]; congruence].
Qed.

(** [includes] is the substring relation. *)
Lemma includes_spec s sub :
  includes s sub = true <-> exists pre post, s = String.append pre (String.append sub post).
Proof.
  induction s as [|c s IH].
  - cbn [includes]. rewrite orb_false_r, prefix_spec. split.
    + intros [post H]. by exists EmptyString, post.
    + intros [pre [post H]]. destruct pre; [by exists post | discriminate].
  - cbn [includes]. rewrite orb_true_iff, prefix_spec, IH. split.
    + intros [[post H] | [pre [post H]]].
      * by exists EmptyString, post.
      * exists (String c pre), post. rewrite append_String. congruence.
    + intros [pre [post H]]. destruct pre as [|a pre].
      * left. by exists post.
      * right. exists pre, post. rewrite append_String in H. congruence.
Qed.

Lemma revOnto_append s acc : revOnto s acc = String.append (revOnto s EmptyString) acc.
Proof.
  revert acc. induction s as [|c s IH]; intros acc; simpl; [done|].
  rewrite (IH (String c acc)), (IH (String c EmptyString)).
  generalize (revOnto s EmptyString) as r. intros r.
  induction r as [|d r IHr]; [done|]. rewrite !append_String. by f_equal.
Qed.

Lemma revOnto_revOnto s a b : revOnto (revOnto s a) b = revOnto a (String.append s b).
Proof.
  revert a. induction s as [|c s IH]; intros a; [done|].
  simpl. by rewrite IH.
Qed.

Lemma append_Empty_r s : String.append s EmptyString = s.
Proof. induction s as [|c s IH]; [done|]. rewrite append_String. by f_equal. Qed.

Lemma rev_involutive s : revOnto (revOnto s EmptyString) EmptyString = s.
Proof. rewrite revOnto_revOnto. simpl. apply append_Empty_r. Qed.

Lemma trimStart_startsClean s : startsClean (trimStart s).
Proof.
  induction s as [|c s IH]; simpl; [done|].
  destruct (isSpace c) eqn:E; [done | exact E].
Qed.

Lemma trimStart_clean s : startsClean s -> trimStart s = s.
Proof. destruct s as [|c s]; simpl; [done|]. by intros ->. Qed.

Lemma startsClean_append_inv r acc :
  startsClean (String.append r acc) -> startsClean r.
Proof. by destruct r. Qed.

Lemma endsClean_tail c s :
  startsClean (revOnto (String c s) EmptyString) -> startsClean (revOnto s EmptyString).
Proof. simpl. rewrite revOnto_append. apply startsClean_append_inv. Qed.

Lemma trimStart_endsClean s :
  startsClean (revOnto s EmptyString) -> startsClean (revOnto (trimStart s) EmptyString).
Proof.
  induction s as [|c s IH]; [done|]. intros H.
  cbn [trimStart]. destruct (isSpace c); [|done].
  apply IH. by apply (endsClean_tail c).
Qed.

Lemma trim_idempotent s : trim (trim s) = trim s.
Proof.
  unfold trim.
  set (u := trimStart (revOnto (trimStart s) EmptyString)).
  assert (Hu : startsClean u) by apply trimStart_startsClean.
  assert (Hr : startsClean (revOnto u EmptyString)).
  { apply trimStart_endsClean. rewrite rev_involutive. apply trimStart_startsClean. }
  rewrite (trimStart_clean _ Hr), rev_involutive. by rewrite (trimStart_clean _ Hu).
Qed.

End TextFacts.

(** ** The knowledge lookup *)

Section KnowledgeFacts.
Import Text Knowledge.

(** [ceilHalf n] is the least [m] with [n <= 2 * m], i.e. the ceiling
    of [0.5 * n]. *)
Lemma ceilHalf_spec n m : (ceilHalf n <= m)%nat <-> (n <= 2 * m)%nat.
Proof.
  unfold ceilHalf.
  pose proof (Nat.div2_odd (n + 1)) as H.
  destruct (Nat.odd (n + 1)); simpl in H; lia.
Qed.

Lemma overlaps_spec entryKeywords keyword :
  overlaps entryKeywords keyword = true <->
  exists entryKeyword, In entryKeyword entryKeywords /\
    (includes entryKeyword keyword = true \/ includes keyword entryKeyword = true).
Proof.
  unfold overlaps. rewrite existsb_exists.
  by setoid_rewrite orb_true_iff.
Qed.

Lemma keywordsOf_spec text word :
  In word (keywordsOf text) <-> In word (splitWs text) /\ (3 < String.length word)%nat.
Proof. unfold keywordsOf. rewrite filter_In. by rewrite Nat.ltb_lt. Qed.

Lemma scanEntries_step message entry rest :
  scanEntries (toLowerCase message) (keywordsOf (toLowerCase message)) (entry :: rest) =
  if decide (qualifies message entry) then Some (answer entry)
  else scanEntries (toLowerCase message) (keywordsOf (toLowerCase message)) rest.
Proof.
  cbn [scanEntries]. unfold qualifies, exactMatch, fuzzyMatch, overlapCount, enoughOverlap.
  destruct (String.eqb_spec (toLowerCase (question entry)) (toLowerCase message)) as [He|He].
  - rewrite decide_True; [done | by left].
  - match goal with |- context [(?a <=? ?b)%nat] => destruct (Nat.leb_spec a b) as [Hle|Hgt] end.
    + rewrite decide_True; [done|]. right. by apply ceilHalf_spec.
    + rewrite decide_False; [done|]. intros [?|Hf]; [done|].
      apply ceilHalf_spec in Hf. lia.
Qed.

(** [findSimilarQuestion] answers with the first qualifying entry in
    store order, and with nothing when no entry qualifies. *)
Lemma findSimilarQuestion_first entries message :
  match findSimilarQuestion entries message with
  | Some a =>
      exists skipped entry rest,
        entries = skipped ++ entry :: rest /\
        Forall (fun e => ~ qualifies message e) skipped /\
        qualifies message entry /\ a = answer entry
  | None => Forall (fun e => ~ qualifies message e) entries
  end.
Proof.
  unfold findSimilarQuestion.
  induction entries as [|entry rest IH]; [by constructor|].
  rewrite scanEntries_step. destruct (decide (qualifies message entry)) as [Hq|Hq].
  - by exists [], entry, rest.
  - destruct (scanEntries _ _ rest) as [a|].
    + destruct IH as (skipped & e & rest' & -> & Hs & He & ->).
      exists (entry :: skipped), e, rest'. repeat split; try done. by constructor.
    + by constructor.
Qed.



End KnowledgeFacts.

(** ** The help-request table *)

Section StoreFacts.

Lemma In_rowsOf s id row : In (id, row) (rowsOf s) <-> helpRequests s !! id = Some row.
Proof.
  unfold rowsOf. rewrite <- list_elem_of_In, elem_of_lookup_imap. split.
  - intros (i & x & [= -> ->] & H). exact H.
  - intros H. by exists id, row.
Qed.

Lemma rowsOf_keys s : (rowsOf s).*1 = seq 0 (length (helpRequests s)).
Proof.
  unfold rowsOf. rewrite fmap_imap.
  rewrite (imap_ext _ (fun j _ => j)) by done.
  rewrite (imap_seq_0 _ (fun j => j)). apply list_fmap_id.
Qed.

Lemma NoDup_filter_keys (P : nat * HelpRequest -> bool) rows :
  NoDup (rows.*1) -> NoDup ((List.filter P rows).*1).
Proof.
  induction rows as [|x rows IH]; [done|]. cbn [fmap list_fmap List.filter].
  intros [Hx Hrest]%NoDup_cons. destruct (P x); [|by apply IH].
  apply NoDup_cons. split; [|by apply IH].
  intros Hin. apply Hx.
  apply list_elem_of_fmap in Hin as (y & -> & Hy).
  apply list_elem_of_fmap. exists y. split; [done|].
  apply list_elem_of_In. apply list_elem_of_In in Hy. by apply filter_In in Hy as [? _].
Qed.

Lemma rowsOf_app s extra :
  rowsOf (withHelpRequests (helpRequests s ++ [extra]) s) =
  rowsOf s ++ [(length (helpRequests s), extra)].
Proof.
  unfold rowsOf. cbn [helpRequests withHelpRequests]. rewrite imap_app.
  cbn [imap]. by rewrite Nat.add_0_r.
Qed.

End StoreFacts.

(** ** The timeout sweeps *)

Section TimeoutFacts.
Import Supervisor Timeout.

Lemma markAsExpired_lookup now id s j :
  helpRequests (fst (markAsExpired now id s)) !! j =
  match helpRequests s !! j with
  | Some row => Some (if decide (j = id /\ status row = pending) then expiredAt now row else row)
  | None => None
  end.
Proof.
  unfold markAsExpired.
  destruct (helpRequests s !! id) as [request|] eqn:Hid; cbn [fst].
  - destruct (decide (status request = pending)) as [Hp|Hp]; cbn [fst].
    + cbn [emitLog withEmitted withHelpRequests helpRequests].
      destruct (decide (j = id)) as [->|Hne].
      * rewrite list_lookup_insert_eq by (by eapply lookup_lt_Some).
        rewrite Hid. by rewrite decide_True.
      * rewrite list_lookup_insert_ne by done.
        destruct (helpRequests s !! j); [|done]. rewrite decide_False; [done|]. by intros [? _].
    + destruct (helpRequests s !! j) as [row|] eqn:Hj; [|done].
      rewrite decide_False; [done|]. intros [-> ?]. congruence.
  - destruct (helpRequests s !! j) as [row|] eqn:Hj; [|done].
    rewrite decide_False; [done|]. intros [-> ?]. congruence.
Qed.

Lemma expireEach_untouched storeFails now requests s j :
  j ∉ requests.*1 ->
  helpRequests (fst (expireEach storeFails now requests s)) !! j = helpRequests s !! j.
Proof.
  revert s. induction requests as [|request rest IH]; intros s Hj; [done|].
  cbn [expireEach]. rewrite fmap_cons, not_elem_of_cons in Hj. destruct Hj as [Hne Hrest].
  destruct (storeFails (fst request)); [done|].
  rewrite IH by done. rewrite markAsExpired_lookup.
  destruct (helpRequests s !! j); [|done]. rewrite decide_False; [done|]. by intros [? _].
Qed.

Lemma expireEach_completed storeFails now requests s j :
  snd (expireEach storeFails now requests s) = true ->
  helpRequests (fst (expireEach storeFails now requests s)) !! j =
  match helpRequests s !! j with
  | Some row =>
      Some (if decide (j ∈ requests.*1 /\ status row = pending) then expiredAt now row else row)
  | None => None
  end.
Proof.
  revert s. induction requests as [|request rest IH]; intros s.
  - intros _. cbn [expireEach fst]. destruct (helpRequests s !! j); [|done].
    rewrite decide_False; [done|]. intros [H _]. by apply elem_of_nil in H.
  - cbn [expireEach]. destruct (storeFails (fst request)); [done|].
    intros Hdone. rewrite (IH _ Hdone), markAsExpired_lookup.
    destruct (helpRequests s !! j) as [row|]; [|done]. f_equal.
    rewrite fmap_cons.
    destruct (decide (j = fst request /\ status row = pending)) as [[-> Hp]|Hn].
    + rewrite decide_False by (intros [_ H]; discriminate H).
      rewrite decide_True; [done|]. split; [apply elem_of_cons; by left | done].
    + destruct (decide (j ∈ rest.*1 /\ status row = pending)) as [[Hin Hp]|Hn'].
      * rewrite decide_True; [done|]. split; [apply elem_of_cons; by right | done].
      * rewrite decide_False; [done|]. intros [[->|Hin]%elem_of_cons Hp]; [by apply Hn | by apply Hn'].
Qed.

(** A rejected call ends the loop: the requests before the failing one
    are processed, the failing one and the later ones are not. *)
Lemma expireEach_stops storeFails now before failing after s :
  Forall (fun x => storeFails (fst x) = false) before ->
  storeFails (fst failing) = true ->
  expireEach storeFails now (before ++ failing :: after) s =
  (fst (expireEach (fun _ => false) now before s), false).
Proof.
  intros Hb Hf. revert s. induction Hb as [|x before Hx _ IH]; intros s.
  - cbn [app expireEach fst]. by rewrite Hf.
  - cbn [app expireEach]. rewrite Hx. apply IH.
Qed.

Lemma markEachUnresolved_stops storeFails now before failing after s :
  Forall (fun x => storeFails (fst x) = false) before ->
  storeFails (fst failing) = true ->
  markEachUnresolved storeFails now (before ++ failing :: after) s =
  (fst (markEachUnresolved (fun _ => false) now before s), false).
Proof.
  intros Hb Hf. revert s. induction Hb as [|x before Hx _ IH]; intros s.
  - cbn [app markEachUnresolved fst]. by rewrite Hf.
  - cbn [app markEachUnresolved]. rewrite Hx. apply IH.
Qed.

Lemma markEachUnresolved_reliable now requests s :
  snd (markEachUnresolved (fun _ => false) now requests s) = true.
Proof. revert s. induction requests as [|req rest IH]; intros s; [done | apply IH]. Qed.

Lemma expireEach_reliable now requests s :
  snd (expireEach (fun _ => false) now requests s) = true.
Proof. revert s. induction requests as [|request rest IH]; intros s; [done | apply IH]. Qed.

Lemma In_findStale cutoff s id row :
  In (id, row) (findStale cutoff s) <->
  helpRequests s !! id = Some row /\ status row = pending /\ createdAt row < cutoff.
Proof.
  unfold findStale. rewrite filter_In, In_rowsOf. cbn [snd].
  rewrite andb_true_iff, bool_decide_eq_true, Z.ltb_lt. tauto.
Qed.

Lemma findStale_keys cutoff s id :
  id ∈ (findStale cutoff s).*1 <->
  exists row, helpRequests s !! id = Some row /\ status row = pending /\ createdAt row < cutoff.
Proof.
  rewrite list_elem_of_fmap. split.
  - intros ([i row] & -> & Hin). exists row. by apply In_findStale, list_elem_of_In.
  - intros (row & H). exists (id, row). split; [done|]. by apply list_elem_of_In, In_findStale.
Qed.

Lemma findStale_NoDup cutoff s : NoDup ((findStale cutoff s).*1).
Proof. apply NoDup_filter_keys. rewrite rowsOf_keys. apply NoDup_seq. Qed.

Lemma expiredAt_idempotent now row : expiredAt now (expiredAt now row) = expiredAt now row.
Proof. by destruct row. Qed.

Lemma markEachUnresolved_untouched storeFails now requests s j :
  j ∉ requests.*1 ->
  helpRequests (fst (markEachUnresolved storeFails now requests s)) !! j = helpRequests s !! j.
Proof.
  revert s. induction requests as [|req rest IH]; intros s Hj; [done|].
  cbn [markEachUnresolved]. rewrite fmap_cons, not_elem_of_cons in Hj. destruct Hj as [Hne Hrest].
  destruct (storeFails (fst req)); [done|].
  rewrite IH by done. cbn [helpRequests withHelpRequests].
  destruct (helpRequests s !! fst req); [|done]. by rewrite list_lookup_insert_ne.
Qed.

Lemma markEachUnresolved_completed storeFails now requests s j :
  snd (markEachUnresolved storeFails now requests s) = true ->
  helpRequests (fst (markEachUnresolved storeFails now requests s)) !! j =
  match helpRequests s !! j with
  | Some row => Some (if decide (j ∈ requests.*1) then expiredAt now row else row)
  | None => None
  end.
Proof.
  revert s. induction requests as [|req rest IH]; intros s.
  - intros _. cbn [markEachUnresolved fst]. destruct (helpRequests s !! j); [|done].
    rewrite decide_False; [done|]. apply not_elem_of_nil.
  - cbn [markEachUnresolved]. destruct (storeFails (fst req)); [done|].
    intros Hdone. rewrite (IH _ Hdone). cbn [helpRequests withHelpRequests].
    rewrite fmap_cons.
    destruct (decide (j = fst req)) as [->|Hne].
    + destruct (helpRequests s !! fst req) as [row|] eqn:Hrow; [|by rewrite Hrow].
      rewrite list_lookup_insert_eq by (by eapply lookup_lt_Some). f_equal.
      rewrite (decide_True (P := fst req ∈ fst req :: rest.*1)) by (apply elem_of_cons; by left).
      destruct (decide (fst req ∈ rest.*1)); [apply expiredAt_idempotent | done].
    + assert (Hsame : (match helpRequests s !! fst req with
                       | Some row => <[fst req := applyUpdate (mkUpdate (Some unresolved) (Some now) None None) row]> (helpRequests s)
                       | None => helpRequests s
                       end) !! j = helpRequests s !! j).
      { destruct (helpRequests s !! fst req); [|done]. by rewrite list_lookup_insert_ne. }
      rewrite Hsame. destruct (helpRequests s !! j) as [row|]; [|done]. f_equal.
      destruct (decide (j ∈ rest.*1)) as [Hin|Hn].
      * rewrite decide_True; [done|]. apply elem_of_cons. by right.
      * rewrite decide_False; [done|]. intros [?|?]%elem_of_cons; done.
Qed.

End TimeoutFacts.

(** ** The supervisor service *)

Section SupervisorFacts.
Import Supervisor.

(** The listener touches neither table. *)
Lemma handleHelpRequestResolved_tables now publish id caller answer s :
  let s' := handleHelpRequestResolved now publish id caller answer s in
  helpRequests s' = helpRequests s /\ knowledgeBaseEntries s' = knowledgeBaseEntries s /\
  knowledgeBase s' = knowledgeBase s /\ responseCache s' = responseCache s.
Proof.
  unfold handleHelpRequestResolved.
  destruct (decide _); [done|]. destruct (_ && _); [|done].
  by destruct (publish _ _).
Qed.

Lemma emitResolved_tables now publish id q caller answer s :
  let s' := emitResolved now publish id q caller answer s in
  helpRequests s' = helpRequests s /\ knowledgeBaseEntries s' = knowledgeBaseEntries s /\
  knowledgeBase s' = knowledgeBase s /\ responseCache s' = responseCache s.
Proof.
  unfold emitResolved. cbn zeta.
  set (s1 := emitLog _ s).
  pose proof (handleHelpRequestResolved_tables now publish id caller answer s1) as (A1 & B1 & C1 & D1).
  pose proof (handleHelpRequestResolved_tables now publish id caller answer
                (handleHelpRequestResolved now publish id caller answer s1)) as (A2 & B2 & C2 & D2).
  cbn zeta in *. rewrite A2, B2, C2, D2, A1, B1, C1, D1. done.
Qed.

Lemma update_tables now publish id data s :
  let out := update now publish id data s in
  helpRequests (fst out) =
    match helpRequests s !! id with
    | Some row => <[id := applyUpdate data row]> (helpRequests s)
    | None => helpRequests s
    end /\
  snd out = (applyUpdate data <$> (helpRequests s !! id)) /\
  knowledgeBaseEntries (fst out) = knowledgeBaseEntries s /\
  knowledgeBase (fst out) = knowledgeBase s /\
  responseCache (fst out) = responseCache s.
Proof.
  unfold update. destruct (helpRequests s !! id) as [row|]; [|done]. cbn [fst snd fmap option_fmap option_map].
  destruct (newStatus data) as [[]|]; try done.
  destruct (newSupervisorResponse data) as [a|]; [|done].
  destruct (Text.truthy a); [|done].
  match goal with |- context [emitResolved ?n ?p ?i ?q ?c ?a ?s1] =>
    pose proof (emitResolved_tables n p i q c a s1) as (A & B & C & D) end.
  cbn zeta in *. by rewrite A, B, C, D.
Qed.

(** The effect of [resolveHelpRequest] on the tables, row by row. *)
Lemma resolveHelpRequest_lookup now publish id answer s j :
  helpRequests (fst (resolveHelpRequest now publish id answer s)) !! j =
  match helpRequests s !! j with
  | Some row =>
      Some (if decide (j = id /\ (id ∉ sentSupervisorResponses s) /\ status row <> resolved)
            then resolvedWith now answer (length (knowledgeBaseEntries s)) row
            else row)
  | None => None
  end.
Proof.
  unfold resolveHelpRequest, getById.
  destruct (decide (id ∈ sentSupervisorResponses s)) as [Hin|Hin]; cbn [fst].
  { destruct (helpRequests s !! j); [|done]. rewrite decide_False; [done|]. tauto. }
  destruct (helpRequests s !! id) as [request|] eqn:Hid; cbn [fst].
  2:{ destruct (helpRequests s !! j) eqn:Hj; [|done]. rewrite decide_False; [done|].
      intros (-> & _). congruence. }
  destruct (decide (status request = resolved)) as [Hr|Hr]; cbn [fst].
  { cbn [helpRequests withSentSupervisorResponses].
    destruct (helpRequests s !! j) eqn:Hj; [|done]. rewrite decide_False; [done|].
    intros (-> & _ & ?). congruence. }
  pose proof (update_tables now publish id (mkUpdate (Some resolved) (Some now) (Some answer) None) s)
    as (R1 & O1 & K1 & _). cbn zeta in *.
  destruct (update now publish id _ s) as [s1 o1]. cbn [fst snd] in *.
  rewrite Hid in R1, O1. cbn in O1. subst o1.
  match goal with |- context [update now publish id ?d ?s2] =>
    pose proof (update_tables now publish id d s2) as (R2 & _) end.
  cbn zeta in *. cbn [fst]. rewrite R2. cbn [helpRequests withKnowledgeBaseEntries].
  rewrite R1, K1.
  rewrite list_lookup_insert_eq by (by eapply lookup_lt_Some).
  rewrite list_insert_insert_eq.
  destruct (decide (j = id)) as [->|Hne].
  - rewrite list_lookup_insert_eq by (by eapply lookup_lt_Some). rewrite Hid.
    by rewrite decide_True.
  - rewrite list_lookup_insert_ne by done.
    destruct (helpRequests s !! j); [|done]. rewrite decide_False; [done|]. tauto.
Qed.

End SupervisorFacts.

Section ResolveFacts.
Import Supervisor.

Lemma resolveHelpRequest_success now publish id answer s s1 updated :
  resolveHelpRequest now publish id answer s = (s1, resolvedNow updated) ->
  (id ∉ sentSupervisorResponses s) /\
  exists request, helpRequests s !! id = Some request /\ status request <> resolved /\
    helpRequests s1 !! id
      = Some (resolvedWith now answer (length (knowledgeBaseEntries s)) request).
Proof.
  intros H. pose proof (resolveHelpRequest_lookup now publish id answer s id) as L.
  rewrite H in L. cbn [fst] in L. revert H. unfold resolveHelpRequest, getById.
  destruct (decide (id ∈ sentSupervisorResponses s)) as [?|Hin]; [done|].
  destruct (helpRequests s !! id) as [request|] eqn:Hid; [|done].
  destruct (decide (status request = resolved)) as [?|Hr]; [done|].
  intros _. split; [done|]. exists request. repeat split; try done.
  by rewrite decide_True in L.
Qed.



End ResolveFacts.

(** ** The delivery ledger *)

Section LedgerFacts.
Import Ledger.

Lemma hasSent_spec c id s :
  hasSentSupervisorResponse c id s = true <->
  exists responses t, supervisorResponseCache s !! c = Some responses /\ responses !! id = Some t.
Proof.
  unfold hasSentSupervisorResponse. destruct (supervisorResponseCache s !! c) as [m|].
  - rewrite bool_decide_eq_true. split.
    + intros [t Ht]. by exists m, t.
    + intros (m' & t & [= <-] & Ht). by exists t.
  - split; [done | by intros (? & ? & ? & _)].
Qed.

Lemma hasSent_mark now c id s : hasSentSupervisorResponse c id (markSupervisorResponseSent now c id s) = true.
Proof.
  apply hasSent_spec. unfold markSupervisorResponseSent. cbn [supervisorResponseCache withSupervisorResponseCache].
  eexists _, now. rewrite lookup_insert_eq. split; [done|]. apply lookup_insert_eq.
Qed.



(** And it forgets every older mark. *)
Lemma hasSent_cleanup_old now c id s responses t :
  supervisorResponseCache s !! c = Some responses -> responses !! id = Some t ->
  now - t > 30 * 60 * 1000 ->
  hasSentSupervisorResponse c id (cleanup now s) = false.
Proof.
  intros Hm Ht Hage. apply not_true_is_false. rewrite hasSent_spec. unfold cleanup.
  cbn [supervisorResponseCache withSupervisorResponseCache].
  rewrite lookup_omap, Hm. cbn [mbind option_bind].
  intros (m & t' & Hkept & Hid).
  destruct (decide _); [done|]. injection Hkept as <-.
  apply map_lookup_filter_Some in Hid as [Hid Hkeep]. cbn [snd] in Hkeep.
  rewrite Ht in Hid. injection Hid as <-. lia.
Qed.

End LedgerFacts.

(** ** The agent service *)

Section AgentFacts.
Import Ledger Agent.

Lemma firstDesc_In rows b : firstDesc rows = Some b -> In b rows.
Proof.
  revert b. induction rows as [|x rest IH]; intros b; [done|]. cbn [firstDesc].
  destruct (firstDesc rest) as [b'|].
  - destruct (descBefore _ _); intros [= <-]; [right; by apply IH | by left].
  - intros [= <-]. by left.
Qed.

Lemma firstDesc_None rows : firstDesc rows = None -> rows = [].
Proof.
  destruct rows as [|x rest]; [done|]. cbn [firstDesc].
  destruct (firstDesc rest); [by destruct (descBefore _ _) | done].
Qed.

Lemma findFirstResolved_In caller since s id row :
  findFirstResolved caller since s = Some (id, row) ->
  helpRequests s !! id = Some row /\ resolvedSince caller since (id, row) = true.
Proof.
  unfold findFirstResolved. intros [H1 H2]%firstDesc_In%filter_In.
  split; [by apply In_rowsOf | done].
Qed.

(** The first two branches deliver only what the ledger does not hold. *)
Lemma directQuery_cases now c confirmation s s' r :
  directQuery now c confirmation s = Some (s', r) ->
  (s' = s /\ r = confirmation) \/
  exists responseId response row,
    hasSentSupervisorResponse c responseId s = false /\
    s' = markSupervisorResponseSent now c responseId s /\
    r = supervisorSays responseId response /\
    helpRequests s !! responseId = Some row /\
    now - resolvedTime row < 10 * 60 * 1000.
Proof.
  unfold directQuery.
  destruct (findFirstResolved _ _ _) as [[responseId helpRequest]|] eqn:Hf; [|done].
  apply findFirstResolved_In in Hf as [Hrow _].
  destruct (supervisorResponse helpRequest) as [response|]; [|done].
  destruct (Text.truthy response); [|done].
  destruct (Z.ltb_spec (now - match resolvedAt helpRequest with Some t => t | None => 0 end)
                       (10 * 60 * 1000)) as [Hage|_]; [|done].
  destruct (hasSentSupervisorResponse c responseId s) eqn:Hsent; intros [= <- <-].
  - by left.
  - right. by exists responseId, response, helpRequest.
Qed.

Lemma ambientCheck_cases now c s s' r :
  ambientCheck now c s = Some (s', r) ->
  exists responseId response row,
    hasSentSupervisorResponse c responseId s = false /\
    s' = markSupervisorResponseSent now c responseId s /\
    r = supervisorSays responseId response /\
    helpRequests s !! responseId = Some row /\
    now - resolvedTime row < 10 * 60 * 1000.
Proof.
  unfold ambientCheck.
  destruct (findFirstResolved _ _ _) as [[responseId recentResponse]|] eqn:Hf; [|done].
  apply findFirstResolved_In in Hf as [Hrow Hsince].
  destruct (supervisorResponse recentResponse) as [response|]; [|done].
  destruct (Text.truthy response); [|done].
  destruct (hasSentSupervisorResponse c responseId s) eqn:Hsent; [done|].
  intros [= <- <-]. exists responseId, response, recentResponse. repeat split; try done.
  unfold resolvedSince in Hsince. apply andb_true_iff in Hsince as [_ Hsince]. cbn [snd] in Hsince.
  unfold resolvedTime. destruct (resolvedAt recentResponse) as [t|]; [|done].
  apply Z.leb_le in Hsince. lia.
Qed.

(** The regular flow never relays a supervisor answer and leaves the
    ledger alone. *)
Lemma regularFlow_cases now message caller s :
  let out := regularFlow now message caller s in
  supervisorResponseCache (fst out) = supervisorResponseCache s /\
  (forall responseId response, snd out <> supervisorSays responseId response) /\
  (helpRequests (fst out) = helpRequests s \/
   exists c, caller = Some c /\ snd out = checkingWithSupervisor message /\
     helpRequests (fst out)
       = helpRequests s ++ [createHelpRequestData now message (formatCallerId c)]).
Proof.
  unfold regularFlow.
  destruct (Knowledge.knowledgeStage _ _ _) as [kb [a|]]; [by auto|].
  destruct caller as [c|]; [|by auto].
  destruct (isSpecialMessage message); cbn [negb]; [by auto|].
  destruct (findPending _ _ _); [by auto|].
  cbn [fst snd]. split; [done|]. split; [done|]. right. by exists c.
Qed.

Lemma hasSent_emitLog c id e s :
  hasSentSupervisorResponse c id (emitLog e s) = hasSentSupervisorResponse c id s.
Proof. done. Qed.


(** *** Asking the same question twice *)










(** The scenario of the opening hours: the stored question differs from
    the message only by case and the question mark, the overlap decides,
    and no request is created. *)
Example opening_hours_answered :
  let s := withKnowledgeBaseEntries [mkEntry "what are your hours" "We are open 9-5" "manual"]
             emptyState in
  snd (handleMessage 1000 "call-42" "What are your hours?" (Some "42") s)
    = knowledgeAnswer "We are open 9-5" /\
  helpRequests (fst (handleMessage 1000 "call-42" "What are your hours?" (Some "42") s)) = [].
Proof. split; by vm_compute. Qed.

(** The scenario of the perms: escalation, resolution, one relay through
    [handleMessage], then confirmations. *)
Example perms_relayed_once_by_handleMessage :
  let s1 := fst (handleMessage 1000 "call-42" "Do you do perms?" (Some "42") emptyState) in
  let s2 := fst (Supervisor.resolveHelpRequest 5000 (fun _ _ => false) 0 "Yes, $80" s1) in
  let first := handleMessage 6000 "call-42" "__CHECK_SUPERVISOR_RESPONSES__" (Some "42") s2 in
  let second := handleMessage 7000 "call-42" "__CHECK_SUPERVISOR_RESPONSES__" (Some "42") (fst first) in
  snd first = supervisorSays 0 "Yes, $80" /\ snd second = alreadySentMessage.
Proof. split; by vm_compute. Qed.

End AgentFacts.

Section RunFacts.
Import Supervisor Agent Timeout.

Lemma expireEach_any storeFails now requests s j row :
  helpRequests s !! j = Some row ->
  exists row', helpRequests (fst (expireEach storeFails now requests s)) !! j = Some row' /\
               (row' = row \/ (status row = pending /\ row' = expiredAt now row)).
Proof.
  revert s row. induction requests as [|request rest IH]; intros s row Hj.
  - exists row. by split; [|left].
  - cbn [expireEach]. destruct (storeFails (fst request)).
    { exists row. by split; [|left]. }
    pose proof (markAsExpired_lookup now (fst request) s j) as L. rewrite Hj in L.
    destruct (IH _ _ L) as (row' & Hrow' & Hcases). exists row'. split; [done|].
    destruct (decide (j = fst request /\ status row = pending)) as [[_ Hp]|_]; [|done].
    right. split; [done|]. by destruct Hcases as [->|[? _]].
Qed.

Lemma markEachUnresolved_any storeFails now requests s j row :
  helpRequests s !! j = Some row ->
  exists row', helpRequests (fst (markEachUnresolved storeFails now requests s)) !! j = Some row' /\
               (row' = row \/ (j ∈ requests.*1 /\ row' = expiredAt now row)).
Proof.
  revert s row. induction requests as [|req rest IH]; intros s row Hj.
  - exists row. by split; [|left].
  - cbn [markEachUnresolved]. destruct (storeFails (fst req)).
    { exists row. by split; [|left]. }
    rewrite fmap_cons.
    destruct (decide (j = fst req)) as [->|Hne].
    + rewrite Hj.
      edestruct (IH (withHelpRequests (<[fst req := expiredAt now row]> (helpRequests s)) s)
                    (expiredAt now row)) as (row' & Hrow' & Hcases).
      { cbn [helpRequests withHelpRequests]. apply list_lookup_insert_eq. by eapply lookup_lt_Some. }
      exists row'. split; [exact Hrow'|]. right. split; [apply elem_of_cons; by left|].
      destruct Hcases as [->|[_ ->]]; [done | apply expiredAt_idempotent].
    + edestruct (IH (withHelpRequests
                       (match helpRequests s !! fst req with
                        | Some row0 => <[fst req := applyUpdate (mkUpdate (Some unresolved) (Some now) None None) row0]> (helpRequests s)
                        | None => helpRequests s
                        end) s) row) as (row' & Hrow' & Hcases).
      { cbn [helpRequests withHelpRequests].
        destruct (helpRequests s !! fst req); [|done]. by rewrite list_lookup_insert_ne. }
      exists row'. split; [exact Hrow'|].
      destruct Hcases as [->|[Hin ->]]; [by left|]. right. split; [|done].
      apply elem_of_cons. by right.
Qed.

Lemma resolveRoute_rows now publish id answer s :
  helpRequests (fst (resolveRoute now publish id answer s)) = helpRequests s \/
  helpRequests (fst (resolveRoute now publish id answer s))
    = helpRequests (fst (resolveHelpRequest now publish id answer s)).
Proof.
  unfold resolveRoute. destruct (negb _); [by left|].
  destruct (helpRequests s !! id) as [existing|].
  - destruct (decide _); [by left|].
    destruct (resolveHelpRequest now publish id answer s) as [s1 []]; try (by right).
    all: by destruct (_ && _); right.
  - by destruct (resolveHelpRequest now publish id answer s) as [s1 []]; right.
Qed.

Lemma handleMessage_rows now roomName message callerId s :
  helpRequests (fst (handleMessage now roomName message callerId s)) = helpRequests s \/
  exists extra, helpRequests (fst (handleMessage now roomName message callerId s))
                = helpRequests s ++ [extra].
Proof.
  unfold handleMessage.
  assert (Hreg : forall caller s0, helpRequests s0 = helpRequests s ->
            helpRequests (fst (regularFlow now message caller s0)) = helpRequests s \/
            exists extra, helpRequests (fst (regularFlow now message caller s0))
                          = helpRequests s ++ [extra]).
  { intros caller s0 <-.
    pose proof (regularFlow_cases now message caller s0) as (_ & _ & [H|(c & _ & _ & H)]);
      cbn zeta in *; rewrite H; eauto. }
  assert (Hdirect : forall confirmation s0, helpRequests s0 = helpRequests s ->
            helpRequests (fst (match directQuery now
                                       (match callerId with Some c => c | None => "" end)
                                       confirmation s0 with
                               | Some out => out
                               | None => (s0, noSupervisorResponse)
                               end)) = helpRequests s).
  { intros confirmation s0 H0.
    destruct (directQuery _ _ _ _) as [[s' r]|] eqn:Hq; [|done].
    by apply directQuery_cases in Hq as [[-> ->]|(? & ? & ? & _ & -> & -> & _)]. }
  destruct callerId as [c|]; [|by apply Hreg].
  destruct (Text.truthy c); [|by apply Hreg].
  set (s0 := emitLog _ s).
  destruct (String.eqb _ _); [left; by apply Hdirect|].
  destruct (asksForSupervisorResponse _); [left; by apply Hdirect|].
  destruct (ambientCheck now c s0) as [[s' r]|] eqn:Ha; [|by apply Hreg].
  left. by apply ambientCheck_cases in Ha as (? & ? & ? & _ & -> & -> & _).
Qed.

(** Every operation moves each row along [rowStep], and never removes
    a row. *)
Lemma step_rowStep now op s j row :
  helpRequests s !! j = Some row ->
  exists row', helpRequests (step now op s) !! j = Some row' /\ rowStep row row'.
Proof.
  intros Hj. destruct op as [q c|room m c|publish id a|publish id a|id|fails|conf fails];
    cbn [step].
  - exists row. split; [|constructor]. unfold createHelpRequest, create.
    cbn [fst helpRequests emitLog withEmitted withHelpRequests].
    by apply lookup_app_l_Some.
  - exists row. split; [|constructor].
    destruct (handleMessage_rows now room m c s) as [->|[extra ->]]; [done|].
    by apply lookup_app_l_Some.
  - assert (Hres : exists row',
        helpRequests (fst (resolveHelpRequest now publish id a s)) !! j = Some row' /\
        rowStep row row').
    { rewrite resolveHelpRequest_lookup, Hj. eexists. split; [done|].
      destruct (decide _) as [(_ & _ & Hr)|_]; by constructor. }
    destruct (resolveRoute_rows now publish id a s) as [->| ->]; [|exact Hres].
    exists row. split; [done | constructor].
  - rewrite resolveHelpRequest_lookup, Hj. eexists. split; [done|].
    destruct (decide _) as [(_ & _ & Hr)|_]; by constructor.
  - rewrite markAsExpired_lookup, Hj. eexists. split; [done|].
    destruct (decide _) as [[_ Hp]|_]; by constructor.
  - unfold checkAndProcessExpiredRequests.
    destruct (expireEach_any fails now
                (findStale (now - HELP_REQUEST_TIMEOUT_MINUTES * 60 * 1000) s) s j row Hj)
      as (row' & Hrow' & [->|[Hp ->]]); eexists; (split; [done|]); by constructor.
  - unfold timeoutWorkerTick.
    destruct (markEachUnresolved_any fails now
                (findStale (now - timeoutMinutesOf conf * 60 * 1000) s) s j row Hj)
      as (row' & Hrow' & [->|[Hin ->]]).
    + exists row. split; [done | constructor].
    + exists (expiredAt now row). split; [done|]. constructor.
      apply findStale_keys in Hin as (row0 & H0 & Hp & _). congruence.
Qed.

Lemma rowStep_resolved row row' : rowStep row row' -> status row = resolved -> row' = row.
Proof. intros [r|now a k r Hr|now r Hp] Hs; [done | done | congruence]. Qed.

Lemma rowStep_status row row' :
  rowStep row row' ->
  status row' = status row \/
  (status row = pending /\ status row' = resolved) \/
  (status row = pending /\ status row' = unresolved) \/
  (status row = unresolved /\ status row' = resolved).
Proof.
  intros [r|now a k r Hr|now r Hp]; [by left| |by right; right; left].
  right. destruct (status r) eqn:E; [by left | done | by right; right].
Qed.

(** A resolved row survives every run unchanged, and no run removes
    a row. *)
Lemma run_keeps_resolved ops s id row :
  helpRequests s !! id = Some row -> status row = resolved ->
  helpRequests (run ops s) !! id = Some row.
Proof.
  revert s. induction ops as [|[now op] rest IH]; intros s Hrow Hres; [done|].
  destruct (step_rowStep now op s id row Hrow) as (row' & Hrow' & Hstep).
  apply rowStep_resolved in Hstep as ->; [|done]. cbn [run]. by apply IH.
Qed.

Lemma run_keeps_rows ops s id row :
  helpRequests s !! id = Some row -> exists row', helpRequests (run ops s) !! id = Some row'.
Proof.
  revert s row. induction ops as [|[now op] rest IH]; intros s row Hrow; [by exists row|].
  destruct (step_rowStep now op s id row Hrow) as (row' & Hrow' & _).
  cbn [run]. by eapply IH.
Qed.

End RunFacts.

(** ** Runs of polls *)

Section PollFacts.
Import Ledger Agent.

Lemma hasSent_markOf c id s :
  hasSentSupervisorResponse c id s = true <-> is_Some (markOf c id s).
Proof.
  unfold hasSentSupervisorResponse, markOf.
  destruct (supervisorResponseCache s !! c); [apply bool_decide_eq_true|].
  split; [done | by intros [? ?]].
Qed.

Lemma markOf_mark now c c' id id' s :
  markOf c id (markSupervisorResponseSent now c' id' s) =
  if decide (c' = c /\ id' = id) then Some now else markOf c id s.
Proof.
  unfold markOf, markSupervisorResponseSent.
  cbn [supervisorResponseCache withSupervisorResponseCache].
  destruct (decide (c' = c)) as [->|Hc].
  - rewrite lookup_insert_eq.
    destruct (decide (id' = id)) as [->|Hi].
    + rewrite lookup_insert_eq. by rewrite decide_True.
    + rewrite lookup_insert_ne by done. rewrite decide_False by (by intros [_ ?]).
      by destruct (supervisorResponseCache s !! c).
  - rewrite lookup_insert_ne by done. by rewrite decide_False by (by intros [? _]).
Qed.

Lemma markOf_cleanup now c id s :
  markOf c id (cleanup now s) =
  match markOf c id s with
  | Some t => if decide (now - t > 30 * 60 * 1000) then None else Some t
  | None => None
  end.
Proof.
  unfold markOf, cleanup. cbn [supervisorResponseCache withSupervisorResponseCache].
  rewrite lookup_omap. destruct (supervisorResponseCache s !! c) as [responses|]; [|done].
  cbn [mbind option_bind]. set (kept := filter _ responses).
  assert (Hkept : kept !! id = match responses !! id with
                               | Some t => if decide (now - t > 30 * 60 * 1000) then None else Some t
                               | None => None
                               end).
  { destruct (responses !! id) as [t|] eqn:Ht.
    - destruct (decide (now - t > 30 * 60 * 1000)) as [Hold|Hyoung].
      + apply map_lookup_filter_None. right. intros t' Ht'. cbn [snd].
        rewrite Ht in Ht'. injection Ht' as <-. by intros ?.
      + apply map_lookup_filter_Some. by split.
    - apply map_lookup_filter_None. by left. }
  destruct (decide (size kept = 0%nat)) as [Hz|Hz]; [|exact Hkept].
  apply map_size_empty_iff in Hz. rewrite Hz, lookup_empty in Hkept. by rewrite <- Hkept.
Qed.








(** A run in which the push failed, so that the first poll relays the
    answer; the later polls do not. *)
Example poll_run_relays_once :
  let s1 := fst (handleMessage 1000 "call-42" "Do you do perms?" (Some "42") emptyState) in
  let s2 := fst (Supervisor.resolveHelpRequest 5000 (fun _ _ => false) 0 "Yes, $80" s1) in
  relayCount "42" 0
    [ (6000, pollMessage "call-42" "__CHECK_SUPERVISOR_RESPONSES__");
      (7000, pollCleanup);
      (8000, pollMessage "call-42" "What did my supervisor say?");
      (9000, pollMessage "call-42" "Do you do perms?") ] s2 = 1%nat.
Proof. by vm_compute. Qed.

End PollFacts.

(** * Specification statements *)

Section Statements.
Import Text Knowledge Ledger Supervisor Agent Timeout.

(** ** C1 *)




(** ** C2 *)



(** ** C3 *)

(** C3, counterexample.  A request expired by the timeout path is
    resolved afterwards by an ordinary resolve: unresolved is left. *)
Lemma expired_request_is_resolved_later :
  let expired := fst (markAsExpired 2000000 0 onePending) in
  let answered := fst (resolveHelpRequest 2000500 alwaysPublished 0 "Yes, $80" expired) in
  (status <$> (helpRequests expired !! 0%nat)) = Some unresolved /\
  (status <$> (helpRequests answered !! 0%nat)) = Some resolved /\
  (supervisorResponse <$> (helpRequests answered !! 0%nat)) = Some (Some "Yes, $80").
Proof. repeat split; by vm_compute. Qed.

(** C3, amended.  Rows are never removed; a resolved row is left
    untouched by every run of operations (create, message, resolve
    through the route or the service, expire, either sweep); and one
    operation changes the status of a row only from pending to
    resolved, from pending to unresolved, or from unresolved to
    resolved. *)
Theorem resolved_is_terminal ops s id row :
  helpRequests s !! id = Some row ->
  (exists row', helpRequests (run ops s) !! id = Some row') /\
  (status row = resolved -> helpRequests (run ops s) !! id = Some row) /\
  (forall now op, exists row',
     helpRequests (step now op s) !! id = Some row' /\
     (status row' = status row \/
      (status row = pending /\ status row' = resolved) \/
      (status row = pending /\ status row' = unresolved) \/
      (status row = unresolved /\ status row' = resolved))).
Proof.
  intros Hrow. split; [by eapply run_keeps_rows|]. split; [by apply run_keeps_resolved|].
  intros now op. destruct (step_rowStep now op s id row Hrow) as (row' & Hrow' & Hstep).
  exists row'. split; [done|]. by apply rowStep_status.
Qed.

Lemma resolved_is_terminal_witness :
  exists row',
    helpRequests
      (run [ (2000000, opCronSweep reliableStore);
             (2000500, opResolveRoute alwaysPublished 0%nat "No");
             (2001000, opExpire 0%nat) ] afterResolve) !! 0%nat = Some row'.
Proof.
  eapply (resolved_is_terminal _ afterResolve 0%nat).
  vm_compute. reflexivity.
Defined.

(** ** C4 *)



(** ** C5 *)

(** C5, counterexample.  Creating the same question of the same
    requester twice yields two pending rows. *)
Lemma create_twice_two_pending :
  let once := fst (createHelpRequest 1000 "Do you do perms?" "42" emptyState) in
  let twice := fst (createHelpRequest 2000 "Do you do perms?" "42" once) in
  pendingCount "42" "Do you do perms?" once = 1%nat /\
  pendingCount "42" "Do you do perms?" twice = 2%nat /\
  length (helpRequests twice) = 2%nat.
Proof. repeat split; by vm_compute. Qed.

(** C5, amended.  [create] looks for no existing request: it always
    appends a pending row for the trimmed requester id, returns the new
    key and signals HELP_REQUEST_CREATED, so the number of pending
    requests of the pair grows by one. *)
Theorem create_always_inserts now question caller s :
  helpRequests (fst (createHelpRequest now question caller s))
    = helpRequests s ++ [mkHelpRequest question (trim caller) pending now None None None] /\
  snd (createHelpRequest now question caller s) = length (helpRequests s) /\
  emitted (fst (createHelpRequest now question caller s))
    = emitted s ++ [HELP_REQUEST_CREATED (length (helpRequests s)) question (trim caller)] /\
  pendingCount (trim caller) question (fst (createHelpRequest now question caller s))
    = S (pendingCount (trim caller) question s).
Proof.
  unfold createHelpRequest, create, createHelpRequestData. cbn [fst snd].
  rewrite trim_idempotent. repeat split.
  unfold pendingCount.
  set (new := mkHelpRequest question (trim caller) pending now None None None).
  change (rowsOf (emitLog _ (withHelpRequests (helpRequests s ++ [new]) s)))
    with (rowsOf (withHelpRequests (helpRequests s ++ [new]) s)).
  rewrite rowsOf_app, List.filter_app, length_app. cbn [List.filter].
  unfold isPendingFor. cbn [snd callerId status hrQuestion new].
  rewrite !bool_decide_eq_true_2 by done. cbn. lia.
Qed.

(** ** C6 *)

(** C6, counterexample.  The store holds an entry whose question equals
    the message, yet the lookup answers with an earlier entry that only
    overlaps with it; no entry that equals the message has that answer.
    The same holds for the knowledge stage of [handleMessage] when the
    in-memory map does not hold the message. *)
Lemma earlier_overlap_beats_exact_match :
  (exists entry, In entry ratesAndHours /\
     toLowerCase (question entry) = toLowerCase "what are your hours") /\
  findSimilarQuestion ratesAndHours "what are your hours" = Some "A1" /\
  snd (knowledgeStage ∅ ratesAndHours "what are your hours") = Some "A1" /\
  (forall entry, In entry ratesAndHours ->
     toLowerCase (question entry) = toLowerCase "what are your hours" ->
     answer entry <> "A1").
Proof.
  split; [|split; [|split]].
  - exists (mkEntry "What are your hours" "A2" "manual"). split; [right; by left | done].
  - by vm_compute.
  - by vm_compute.
  - intros entry [<-|[<-|[]]]; by vm_compute.
Qed.

(** C6, amended.  The knowledge stage answers from the in-memory map
    when it holds a non-empty answer under the lower-cased message;
    otherwise it answers with the non-empty result of
    [findSimilarQuestion].  [findSimilarQuestion] scans the entries in
    store order and answers with the first entry that either equals the
    message case-insensitively or whose overlap count reaches half of
    the incoming token count, rounded up; it answers nothing when no
    entry qualifies. *)
Theorem knowledge_lookup_policy kb entries message :
  (forall a, kb !! toLowerCase message = Some a -> a <> "" ->
     snd (knowledgeStage kb entries message) = Some a) /\
  (kb !! toLowerCase message = None \/ kb !! toLowerCase message = Some "" ->
     snd (knowledgeStage kb entries message) =
       match findSimilarQuestion entries message with
       | Some a => if truthy a then Some a else None
       | None => None
       end) /\
  match findSimilarQuestion entries message with
  | Some a =>
      exists skipped entry rest,
        entries = skipped ++ entry :: rest /\
        Forall (fun e => ~ qualifies message e) skipped /\
        qualifies message entry /\ a = answer entry
  | None => Forall (fun e => ~ qualifies message e) entries
  end.
Proof.
  split; [|split].
  - intros a Ha Hne. unfold knowledgeStage. rewrite Ha. by destruct a.
  - intros Hkb. unfold knowledgeStage.
    destruct Hkb as [-> | ->]; cbn [truthy];
      destruct (findSimilarQuestion entries message) as [d|]; [|done| |done];
      by destruct (truthy d).
  - apply findSimilarQuestion_first.
Qed.

Lemma knowledge_lookup_policy_witness :
  snd (knowledgeStage (loadKnowledgeBase ratesAndHours) ratesAndHours "What are your HOURS")
  = Some "A2".
Proof.
  apply (proj1 (knowledge_lookup_policy (loadKnowledgeBase ratesAndHours) ratesAndHours
                  "What are your HOURS")).
  - vm_compute. reflexivity.
  - discriminate.
Defined.

(** ** C7 *)



(** ** C8 *)

(** C8, counterexample.  A sweep that runs exactly thirty minutes after
    the creation of a pending request, on a store that rejects nothing,
    leaves it pending; and the interval worker with its default
    threshold expires it long before thirty minutes. *)
Lemma sweep_at_exact_deadline_keeps_pending :
  createdAt permsRequest + 30 * 60 * 1000 = 1801000 /\
  helpRequests (fst (checkAndProcessExpiredRequests reliableStore 1801000 onePending)) !! 0%nat
    = Some permsRequest /\
  snd (checkAndProcessExpiredRequests reliableStore 1801000 onePending) = true /\
  (status <$> (helpRequests (fst (timeoutWorkerTick None reliableStore 301001 onePending)) !! 0%nat))
    = Some unresolved.
Proof. repeat split; by vm_compute. Qed.

(** C8, amended.  The cron sweep leaves a pending request as it is when
    it runs at most thirty minutes after its creation, and, when the
    sweep runs to its end, marks it unresolved at the instant of the
    sweep when it runs later than that.  The interval worker does the
    same with its own threshold (five minutes unless configured). *)
Theorem sweep_expires_iff_older storeFails configured now s id row :
  helpRequests s !! id = Some row -> status row = pending ->
  (now <= createdAt row + 30 * 60 * 1000 ->
   helpRequests (fst (checkAndProcessExpiredRequests storeFails now s)) !! id = Some row) /\
  (createdAt row + 30 * 60 * 1000 < now ->
   snd (checkAndProcessExpiredRequests storeFails now s) = true ->
   exists row',
     helpRequests (fst (checkAndProcessExpiredRequests storeFails now s)) !! id = Some row' /\
     status row' = unresolved /\ resolvedAt row' = Some now /\
     supervisorResponse row' = supervisorResponse row) /\
  (now <= createdAt row + timeoutMinutesOf configured * 60 * 1000 ->
   helpRequests (fst (timeoutWorkerTick configured storeFails now s)) !! id = Some row) /\
  (createdAt row + timeoutMinutesOf configured * 60 * 1000 < now ->
   snd (timeoutWorkerTick configured storeFails now s) = true ->
   exists row',
     helpRequests (fst (timeoutWorkerTick configured storeFails now s)) !! id = Some row' /\
     status row' = unresolved /\ resolvedAt row' = Some now /\
     supervisorResponse row' = supervisorResponse row).
Proof.
  intros Hrow Hp. unfold checkAndProcessExpiredRequests, timeoutWorkerTick, HELP_REQUEST_TIMEOUT_MINUTES.
  repeat split.
  - intros Hearly. rewrite expireEach_untouched; [done|].
    intros (row0 & H0 & _ & Hlt)%findStale_keys. rewrite Hrow in H0. injection H0 as <-. lia.
  - intros Hlate Hdone. rewrite (expireEach_completed _ _ _ _ _ Hdone), Hrow.
    eexists. split; [done|]. rewrite decide_True; [done|]. split; [|done].
    apply findStale_keys. exists row. repeat split; [done..|lia].
  - intros Hearly. rewrite markEachUnresolved_untouched; [done|].
    intros (row0 & H0 & _ & Hlt)%findStale_keys. rewrite Hrow in H0. injection H0 as <-. lia.
  - intros Hlate Hdone. rewrite (markEachUnresolved_completed _ _ _ _ _ Hdone), Hrow.
    eexists. split; [done|]. rewrite decide_True; [done|].
    apply findStale_keys. exists row. repeat split; [done..|lia].
Qed.

Lemma sweep_expires_iff_older_witness :
  exists row',
    helpRequests (fst (checkAndProcessExpiredRequests reliableStore 1801001 onePending)) !! 0%nat
      = Some row' /\
    status row' = unresolved /\ resolvedAt row' = Some 1801001 /\
    supervisorResponse row' = supervisorResponse permsRequest.
Proof.
  apply (sweep_expires_iff_older reliableStore None 1801001 onePending 0%nat permsRequest).
  - reflexivity.
  - reflexivity.
  - vm_compute. reflexivity.
  - vm_compute. reflexivity.
Defined.

(** ** C9 *)

(** C9, counterexample.  Three stale pending requests; the store rejects
    the calls made for the second one.  The sweep expires the first and
    stops: the third, for which nothing fails, is still pending. *)
Lemma failure_aborts_the_sweep :
  let out := checkAndProcessExpiredRequests failsOnSecond 2000000 threePending in
  (fst <$> findStale (2000000 - 30 * 60 * 1000) threePending) = [0; 1; 2]%nat /\
  failsOnSecond 2 = false /\
  (status <$> (helpRequests (fst out) !! 0%nat)) = Some unresolved /\
  (status <$> (helpRequests (fst out) !! 2%nat)) = Some pending /\
  snd out = false.
Proof. repeat split; by vm_compute. Qed.

(** C9, amended.  When the store rejects the calls made for one of the
    fetched requests, the sweep ends there: the error is caught (the
    sweep returns, with the error logged), the requests fetched before
    the failing one are marked unresolved, and the failing one and all
    later ones are left as they were.  The interval worker behaves in
    the same way. *)
Theorem sweep_stops_at_first_failure storeFails now s before failing after :
  findStale (now - 30 * 60 * 1000) s = before ++ failing :: after ->
  Forall (fun x => storeFails (fst x) = false) before ->
  storeFails (fst failing) = true ->
  snd (checkAndProcessExpiredRequests storeFails now s) = false /\
  (forall x, In x before ->
     helpRequests (fst (checkAndProcessExpiredRequests storeFails now s)) !! fst x
       = Some (expiredAt now (snd x))) /\
  (forall x, In x (failing :: after) ->
     helpRequests (fst (checkAndProcessExpiredRequests storeFails now s)) !! fst x
       = Some (snd x)) /\
  (forall configured before' failing' after',
     findStale (now - timeoutMinutesOf configured * 60 * 1000) s
       = before' ++ failing' :: after' ->
     Forall (fun x => storeFails (fst x) = false) before' ->
     storeFails (fst failing') = true ->
     snd (timeoutWorkerTick configured storeFails now s) = false /\
     (forall x, In x before' ->
        helpRequests (fst (timeoutWorkerTick configured storeFails now s)) !! fst x
          = Some (expiredAt now (snd x))) /\
     (forall x, In x (failing' :: after') ->
        helpRequests (fst (timeoutWorkerTick configured storeFails now s)) !! fst x
          = Some (snd x))).
Proof.
  intros Hstale Hbefore Hfail.
  assert (Hkeys : forall cutoff l1 x l2, findStale cutoff s = l1 ++ x :: l2 ->
            (forall y, In y (l1 ++ x :: l2) -> helpRequests s !! fst y = Some (snd y)) /\
            (forall y, In y l1 -> fst y ∈ l1.*1) /\
            (forall y, In y (x :: l2) -> fst y ∉ l1.*1)).
  { intros cutoff l1 x l2 Hl. split; [|split].
    - intros [i r] Hy. rewrite <- Hl in Hy. by apply In_findStale in Hy as (? & _).
    - intros y Hy. apply list_elem_of_fmap. exists y. split; [done | by apply list_elem_of_In].
    - pose proof (findStale_NoDup cutoff s) as Hnd.
      rewrite Hl, fmap_app in Hnd. apply NoDup_app in Hnd as (_ & Hdisj & _).
      intros y Hy Hk. apply (Hdisj _ Hk).
      apply list_elem_of_fmap. exists y. split; [done | by apply list_elem_of_In]. }
  split; [|split; [|split]].
  - unfold checkAndProcessExpiredRequests, HELP_REQUEST_TIMEOUT_MINUTES. rewrite Hstale.
    by rewrite (expireEach_stops storeFails now before failing after s Hbefore Hfail).
  - intros x Hx. destruct (Hkeys _ _ _ _ Hstale) as (Hrow & Hin & _).
    unfold checkAndProcessExpiredRequests, HELP_REQUEST_TIMEOUT_MINUTES. rewrite Hstale.
    rewrite (expireEach_stops storeFails now before failing after s Hbefore Hfail). cbn [fst].
    rewrite expireEach_completed by apply expireEach_reliable.
    rewrite (Hrow x) by (apply in_or_app; by left).
    rewrite decide_True; [done|]. split; [by apply Hin|].
    assert (Hs : In x (findStale (now - 30 * 60 * 1000) s))
      by (rewrite Hstale; apply in_or_app; by left).
    destruct x as [i r]. by apply In_findStale in Hs as (_ & ? & _).
  - intros x Hx. destruct (Hkeys _ _ _ _ Hstale) as (Hrow & _ & Hout).
    unfold checkAndProcessExpiredRequests, HELP_REQUEST_TIMEOUT_MINUTES. rewrite Hstale.
    rewrite (expireEach_stops storeFails now before failing after s Hbefore Hfail). cbn [fst].
    rewrite expireEach_untouched by (by apply Hout).
    apply Hrow, in_or_app. by right.
  - intros configured before' failing' after' Hstale' Hbefore' Hfail'.
    destruct (Hkeys _ _ _ _ Hstale') as (Hrow & Hin & Hout).
    unfold timeoutWorkerTick. rewrite Hstale'.
    rewrite (markEachUnresolved_stops storeFails now before' failing' after' s Hbefore' Hfail').
    cbn [fst snd]. split; [done|]. split.
    + intros x Hx. rewrite markEachUnresolved_completed by apply markEachUnresolved_reliable.
      rewrite (Hrow x) by (apply in_or_app; by left).
      by rewrite decide_True by (by apply Hin).
    + intros x Hx. rewrite markEachUnresolved_untouched by (by apply Hout).
      apply Hrow, in_or_app. by right.
Qed.

Lemma sweep_stops_at_first_failure_witness :
  snd (checkAndProcessExpiredRequests failsOnSecond 2000000 threePending) = false.
Proof.
  apply (sweep_stops_at_first_failure failsOnSecond 2000000 threePending
           [(0%nat, mkHelpRequest "q0" "7" pending 0 None None None)]
           (1%nat, mkHelpRequest "q1" "8" pending 0 None None None)
           [(2%nat, mkHelpRequest "q2" "9" pending 0 None None None)]).
  - vm_compute. reflexivity.
  - repeat constructor.
  - reflexivity.
Defined.

(** ** C10 *)



End Statements.

(** * Further properties *)

(** ** Status checks and the message filter *)

Section MessageFilterFacts.
Import Text Agent Polls.

Lemma append_assoc a b c :
  String.append (String.append a b) c = String.append a (String.append b c).
Proof. induction a as [|x a IH]; [done|]. rewrite !append_String. by f_equal. Qed.

Lemma includes_trans s a b :
  includes s a = true -> includes a b = true -> includes s b = true.
Proof.
  rewrite !includes_spec. intros (p & q & ->) (p' & q' & ->).
  exists (String.append p p'), (String.append q' q). by rewrite !append_assoc.
Qed.

Lemma includes_truthy s sub : includes s sub = true -> truthy sub = true -> truthy s = true.
Proof.
  rewrite includes_spec. intros (p & q & ->) Hsub.
  destruct p; [|done]. by destruct sub.
Qed.

(** X1.  Whatever the agent service treats as a status check, be it a
    special message or a question answered by the status branch of
    [handleMessage], is a polling message for the webhook, which keeps it
    out of the room-event log. *)
Theorem status_checks_are_polling_messages message :
  isSpecialMessage message = true \/ asksForSupervisorResponse message = true ->
  isPollingMessage message = true.
Proof.
  intros [H|H].
  - unfold isSpecialMessage in H. unfold isPollingMessage.
    destruct (truthy message); cbn [negb] in *; [|done]. cbn [existsb].
    repeat (destruct (String.eqb message _); [done|]). cbn [orb] in *.
    apply andb_true_iff in H as [-> H]. cbn [andb].
    apply orb_true_iff in H as [H| ->]; [|by rewrite !orb_true_r].
    apply orb_true_iff in H as [-> | ->]; [done | by rewrite !orb_true_r].
  - unfold asksForSupervisorResponse in H.
    assert (Hlower : exists phrase word,
              includes (toLowerCase message) phrase = true /\
              includes phrase "supervisor" = true /\ includes phrase word = true /\
              (word = "responded" \/ word = "say" \/ word = "response")).
    { apply orb_true_iff in H as [H|H]; [apply orb_true_iff in H as [H|H]|].
      - exists "has my supervisor responded", "responded". by repeat split; auto.
      - exists "what did my supervisor say", "say". by repeat split; auto.
      - exists "any response from supervisor", "response". by repeat split; auto. }
    destruct Hlower as (phrase & word & Hin & Hsup & Hword & Hcases).
    assert (Hnonempty : truthy message = true).
    { assert (Ht : truthy (toLowerCase message) = true).
      { apply (includes_truthy _ "supervisor"); [by eapply includes_trans | done]. }
      by destruct message. }
    unfold isPollingMessage. rewrite Hnonempty. cbn [negb].
    destruct (existsb _ _); [done|].
    rewrite (includes_trans _ _ _ Hin Hsup). cbn [andb].
    pose proof (includes_trans _ _ _ Hin Hword) as Hw.
    destruct Hcases as [->|[->| ->]]; rewrite Hw; by rewrite ?orb_true_r.
Qed.

Lemma status_checks_are_polling_messages_witness :
  isPollingMessage "So, what did my Supervisor say about it?" = true.
Proof.
  apply status_checks_are_polling_messages. right. vm_compute. reflexivity.
Defined.

End MessageFilterFacts.

(** ** More on the knowledge base *)

Section KnowledgeBaseFacts.
Import Text Knowledge Supervisor AgentService.

Lemma loadKnowledgeBase_from (kb0 : gmap string string) entries key :
  fold_left (fun kb entry => <[toLowerCase (question entry) := answer entry]> kb) entries kb0
    !! key =
  match last (List.filter (fun e => String.eqb (toLowerCase (question e)) key) entries) with
  | Some entry => Some (answer entry)
  | None => kb0 !! key
  end.
Proof.
  revert kb0. induction entries as [|e entries IH]; intros kb0; [done|].
  cbn [fold_left List.filter]. rewrite IH.
  destruct (String.eqb_spec (toLowerCase (question e)) key) as [He|He].
  - rewrite last_cons. destruct (last _); [done|]. rewrite He. apply lookup_insert_eq.
  - destruct (last _); [done|]. by rewrite lookup_insert_ne.
Qed.

(** X2.  The in-memory map loaded at start-up holds, under a lower-cased
    question, the answer of the last stored entry with that question; so
    right after a start the knowledge stage answers a message that equals
    a stored question case-insensitively with the answer of the last such
    entry, even when an earlier entry overlaps with it. *)
Theorem loaded_map_answers_exact_match entries message :
  loadKnowledgeBase entries !! toLowerCase message =
    (answer <$> last (List.filter
                        (fun e => String.eqb (toLowerCase (question e)) (toLowerCase message))
                        entries)) /\
  (forall entry,
     last (List.filter
             (fun e => String.eqb (toLowerCase (question e)) (toLowerCase message)) entries)
       = Some entry ->
     answer entry <> "" ->
     knowledgeStage (loadKnowledgeBase entries) entries message
       = (loadKnowledgeBase entries, Some (answer entry))).
Proof.
  assert (H : loadKnowledgeBase entries !! toLowerCase message =
    (answer <$> last (List.filter
                        (fun e => String.eqb (toLowerCase (question e)) (toLowerCase message))
                        entries))).
  { unfold loadKnowledgeBase. rewrite loadKnowledgeBase_from. by destruct (last _). }
  split; [exact H|]. intros entry Hlast Hne.
  unfold knowledgeStage. rewrite H, Hlast. cbn [fmap option_fmap option_map].
  by destruct (answer entry).
Qed.

Lemma loaded_map_answers_exact_match_witness :
  knowledgeStage (loadKnowledgeBase ratesAndHours) ratesAndHours "what are your HOURS"
  = (loadKnowledgeBase ratesAndHours, Some "A2").
Proof.
  apply (proj2 (loaded_map_answers_exact_match ratesAndHours "what are your HOURS")
               (mkEntry "What are your hours" "A2" "manual")); [reflexivity | done].
Defined.

(** X3.  An answer given by the knowledge stage is remembered: asking
    the same message again gives the same answer from memory, whatever
    the store holds by then. *)
Theorem knowledge_answer_is_remembered kb entries message kb' a :
  knowledgeStage kb entries message = (kb', Some a) ->
  forall entries', knowledgeStage kb' entries' message = (kb', Some a).
Proof.
  intros H entries'.
  assert (Hkb : kb' !! toLowerCase message = Some a /\ truthy a = true).
  { revert H. unfold knowledgeStage.
    assert (Hstore : match findSimilarQuestion entries message with
                     | Some dbAnswer =>
                         if truthy dbAnswer
                         then (<[toLowerCase message := dbAnswer]> kb, Some dbAnswer)
                         else (kb, None)
                     | None => (kb, None)
                     end = (kb', Some a) ->
                     kb' !! toLowerCase message = Some a /\ truthy a = true).
    { destruct (findSimilarQuestion entries message) as [d|]; [|done].
      destruct (truthy d) eqn:Hd; [|done]. intros [= <- <-].
      split; [apply lookup_insert_eq | done]. }
    destruct (kb !! toLowerCase message) as [b|] eqn:Hb; [|exact Hstore].
    destruct (truthy b) eqn:Ht; [|exact Hstore]. by intros [= <- <-]. }
  destruct Hkb as [Hkb Ht]. unfold knowledgeStage. by rewrite Hkb, Ht.
Qed.

Lemma knowledge_answer_is_remembered_witness :
  knowledgeStage
    (fst (knowledgeStage ∅ ratesAndHours "what are your hours")) [] "what are your hours"
  = (fst (knowledgeStage ∅ ratesAndHours "what are your hours"), Some "A1").
Proof.
  apply (knowledge_answer_is_remembered ∅ ratesAndHours). vm_compute. reflexivity.
Defined.

Lemma scanEntries_app messageLower keywords entries more a :
  scanEntries messageLower keywords entries = Some a ->
  scanEntries messageLower keywords (entries ++ more) = Some a.
Proof.
  induction entries as [|e entries IH]; [done|]. cbn [app scanEntries].
  destruct (String.eqb _ _); [done|]. destruct (enoughOverlap _ _); [done | exact IH].
Qed.

Lemma scanEntries_skip message entries more :
  Forall (fun e => ~ qualifies message e) entries ->
  scanEntries (toLowerCase message) (keywordsOf (toLowerCase message)) (entries ++ more) =
  scanEntries (toLowerCase message) (keywordsOf (toLowerCase message)) more.
Proof.
  induction 1 as [|e entries He _ IH]; [done|].
  change ((e :: entries) ++ more) with (e :: (entries ++ more)).
  rewrite scanEntries_step. by rewrite decide_False.
Qed.

(** X4.  Entries added after the existing ones never change an answer
    that [findSimilarQuestion] already gives. *)
Theorem later_entries_do_not_change_answers entries more message a :
  findSimilarQuestion entries message = Some a ->
  findSimilarQuestion (entries ++ more) message = Some a.
Proof. unfold findSimilarQuestion. apply scanEntries_app. Qed.

Lemma later_entries_do_not_change_answers_witness :
  findSimilarQuestion (ratesAndHours ++ [mkEntry "what are your hours" "A3" "supervisor"])
    "what are your hours" = Some "A1".
Proof. apply later_entries_do_not_change_answers. vm_compute. reflexivity. Defined.

Lemma resolveHelpRequest_entries now publish id answer s s1 updated :
  resolveHelpRequest now publish id answer s = (s1, resolvedNow updated) ->
  exists request,
    helpRequests s !! id = Some request /\
    knowledgeBaseEntries s1
      = knowledgeBaseEntries s ++ [mkEntry (hrQuestion request) answer "supervisor"].
Proof.
  unfold resolveHelpRequest, getById.
  destruct (decide (id ∈ sentSupervisorResponses s)) as [?|Hin]; [done|].
  destruct (helpRequests s !! id) as [request|] eqn:Hid; [|done].
  destruct (decide (status request = resolved)) as [?|Hr]; [done|].
  pose proof (update_tables now publish id (mkUpdate (Some resolved) (Some now) (Some answer) None) s)
    as (_ & O1 & K1 & _). cbn zeta in *.
  destruct (update now publish id _ s) as [s1' o1]. cbn [fst snd] in *.
  rewrite Hid in O1. cbn in O1. subst o1.
  match goal with |- context [update now publish id ?d ?s2] =>
    pose proof (update_tables now publish id d s2) as (_ & _ & K2 & _) end.
  cbn zeta in *. intros [= <- _]. exists request. split; [done|].
  rewrite K2. cbn [knowledgeBaseEntries withKnowledgeBaseEntries]. by rewrite K1.
Qed.

(** X5.  A successful resolve teaches the knowledge base: the store
    gains the entry (question of the request, answer, "supervisor"), the
    row is linked to it, and a later message that equals the question
    case-insensitively is answered with that answer by
    [findSimilarQuestion], provided no older entry qualifies for it. *)
Theorem resolved_answer_is_learned now publish id answer s s1 updated :
  resolveHelpRequest now publish id answer s = (s1, resolvedNow updated) ->
  exists request,
    helpRequests s !! id = Some request /\
    knowledgeBaseEntries s1
      = knowledgeBaseEntries s ++ [mkEntry (hrQuestion request) answer "supervisor"] /\
    (knowledgeBaseEntryId <$> (helpRequests s1 !! id))
      = Some (Some (length (knowledgeBaseEntries s))) /\
    (forall message,
       toLowerCase message = toLowerCase (hrQuestion request) ->
       Forall (fun e => ~ qualifies message e) (knowledgeBaseEntries s) ->
       findSimilarQuestion (knowledgeBaseEntries s1) message = Some answer).
Proof.
  intros H. destruct (resolveHelpRequest_entries _ _ _ _ _ _ _ H) as (request & Hrow & Hentries).
  apply resolveHelpRequest_success in H as (_ & request' & Hrow' & _ & Hlink).
  rewrite Hrow in Hrow'. injection Hrow' as <-.
  exists request. split; [done|]. split; [done|]. split; [by rewrite Hlink|].
  intros message Hsame Hnone. unfold findSimilarQuestion.
  rewrite Hentries, scanEntries_skip by done.
  rewrite scanEntries_step. rewrite decide_True; [done|]. left. done.
Qed.

Lemma resolved_answer_is_learned_witness :
  exists request,
    helpRequests onePending !! 0%nat = Some request /\
    knowledgeBaseEntries (fst (resolveHelpRequest 5000 alwaysPublished 0 "Yes, $80" onePending))
      = knowledgeBaseEntries onePending ++ [mkEntry (hrQuestion request) "Yes, $80" "supervisor"].
Proof.
  edestruct (resolved_answer_is_learned 5000 alwaysPublished 0%nat "Yes, $80" onePending)
    as (request & H1 & H2 & _).
  - vm_compute. reflexivity.
  - exists request. split; [exact H1 | exact H2].
Defined.

(** X6.  A curated entry wins at once: after [addToKnowledgeBase] with a
    non-empty answer, every message that equals the question
    case-insensitively is answered with it from memory, whatever entries
    the store holds. *)
Theorem curated_entry_answers_at_once q a message s :
  a <> "" -> toLowerCase message = toLowerCase q ->
  knowledgeBaseEntries (addToKnowledgeBase q a s)
    = knowledgeBaseEntries s ++ [mkEntry q a "manual"] /\
  forall entries,
    snd (knowledgeStage (knowledgeBase (addToKnowledgeBase q a s)) entries message) = Some a.
Proof.
  intros Ha Hsame. split; [done|]. intros entries.
  unfold knowledgeStage, addToKnowledgeBase, handleKnowledgeBaseUpdate.
  cbn [knowledgeBase withKnowledgeBase emitLog withEmitted withKnowledgeBaseEntries].
  rewrite Hsame, lookup_insert_eq. by destruct a.
Qed.

Lemma curated_entry_answers_at_once_witness :
  snd (knowledgeStage
         (knowledgeBase (addToKnowledgeBase "What are your hours" "9 to 5"
                           (withKnowledgeBaseEntries ratesAndHours emptyState)))
         ratesAndHours "what are your HOURS") = Some "9 to 5".
Proof.
  apply (curated_entry_answers_at_once "What are your hours" "9 to 5").
  - discriminate.
  - vm_compute. reflexivity.
Defined.

End KnowledgeBaseFacts.

(** ** More on resolving and notifying *)

Section NotificationFacts.
Import Text Ledger Supervisor.

(** X7.  The listener of HELP_REQUEST_RESOLVED is idempotent, so its
    double registration on the bus is harmless: emitting the event equals
    logging it and running the listener once, and it pushes at most one
    message. *)
Theorem duplicate_listener_is_harmless now publish id question caller answer s :
  handleHelpRequestResolved now publish id caller answer
    (handleHelpRequestResolved now publish id caller answer s)
    = handleHelpRequestResolved now publish id caller answer s /\
  emitResolved now publish id question caller answer s
    = handleHelpRequestResolved now publish id caller answer
        (emitLog (HELP_REQUEST_RESOLVED id question caller answer) s) /\
  (length (published (emitResolved now publish id question caller answer s))
     <= length (published s) + 1)%nat.
Proof.
  assert (Hidem : forall s0,
    handleHelpRequestResolved now publish id caller answer
      (handleHelpRequestResolved now publish id caller answer s0)
    = handleHelpRequestResolved now publish id caller answer s0).
  { intros s0.
    assert (Hfixed : forall t, id ∈ sentSupervisorResponses t ->
              handleHelpRequestResolved now publish id caller answer t = t).
    { intros t Ht. unfold handleHelpRequestResolved. by rewrite decide_True. }
    destruct (decide (id ∈ sentSupervisorResponses s0)) as [Hin|Hin].
    { rewrite (Hfixed s0 Hin). apply (Hfixed s0 Hin). }
    destruct (truthy caller && negb (String.eqb caller "unknown")) eqn:Hknown.
    - apply Hfixed. unfold handleHelpRequestResolved.
      rewrite decide_False by done. rewrite Hknown.
      match goal with |- context [if publish ?r ?p then _ else _] => destruct (publish r p) end;
        cbn; set_solver.
    - assert (Hsame : handleHelpRequestResolved now publish id caller answer s0 = s0).
      { unfold handleHelpRequestResolved. rewrite decide_False by done. by rewrite Hknown. }
      by rewrite !Hsame. }
  split; [apply Hidem|]. split; [apply Hidem|].
  unfold emitResolved. cbn zeta. rewrite Hidem.
  unfold handleHelpRequestResolved. destruct (decide _); [cbn; lia|].
  destruct (_ && _); [|cbn; lia].
  match goal with |- context [if publish ?r ?p then _ else _] => destruct (publish r p) end;
    cbn [published handleSupervisorResponse markSupervisorResponseSent
         withSupervisorResponseCache emitLog withEmitted withPublished
         withSentSupervisorResponses];
    rewrite length_app; cbn; lia.
Qed.

(** X8.  For a request not handled before and a known requester, the
    listener records the id as handled and pushes once whether or not the
    push succeeds, but the delivery ledger is marked exactly when the push
    succeeded: after a failed push the answer stays deliverable by the
    poll paths. *)
Theorem ledger_marked_iff_pushed now publish id caller answer s :
  id ∉ sentSupervisorResponses s ->
  caller <> "" -> caller <> "unknown" ->
  markOf caller id s = None ->
  let room := String.append "call-" caller in
  let payload := String.append "I've consulted with my supervisor and they say: " answer in
  let s' := handleHelpRequestResolved now publish id caller answer s in
  id ∈ sentSupervisorResponses s' /\
  published s' = published s ++ [(room, payload)] /\
  markOf caller id s' = (if publish room payload then Some now else None) /\
  hasSentSupervisorResponse caller id s' = publish room payload.
Proof.
  intros Hin Hne Hunk Hmark. cbn zeta. unfold handleHelpRequestResolved.
  rewrite decide_False by done.
  assert (Hknown : truthy caller && negb (String.eqb caller "unknown") = true).
  { apply andb_true_iff. split; [by destruct caller|].
    apply negb_true_iff. by apply String.eqb_neq. }
  rewrite Hknown.
  match goal with |- context [if publish ?r ?p then _ else _] =>
    destruct (publish r p) eqn:Hpub end.
  - repeat split.
    + cbn. set_solver.
    + unfold handleSupervisorResponse. rewrite markOf_mark. by rewrite decide_True.
    + unfold handleSupervisorResponse. apply hasSent_mark.
  - repeat split.
    + cbn. set_solver.
    + exact Hmark.
    + apply not_true_is_false. rewrite hasSent_markOf.
      change (markOf caller id _) with (markOf caller id s). rewrite Hmark. by intros [? ?].
Qed.

Lemma ledger_marked_iff_pushed_witness :
  hasSentSupervisorResponse "42" 0
    (handleHelpRequestResolved 5000 (fun _ _ => false) 0 "42" "Yes, $80" onePending) = false.
Proof.
  apply (ledger_marked_iff_pushed 5000 (fun _ _ => false) 0%nat "42" "Yes, $80" onePending).
  - vm_compute. set_solver.
  - discriminate.
  - discriminate.
  - reflexivity.
Defined.

Lemma resolveHelpRequest_not_found now publish id answer s :
  snd (resolveHelpRequest now publish id answer s) = requestNotFound \/
  snd (resolveHelpRequest now publish id answer s) = failedToUpdate ->
  fst (resolveHelpRequest now publish id answer s) = s /\ helpRequests s !! id = None.
Proof.
  unfold resolveHelpRequest, getById.
  destruct (decide _); [by intros [?|?]|].
  destruct (helpRequests s !! id) as [request|] eqn:Hid; [|done].
  destruct (decide _); [by intros [?|?]|].
  unfold update. rewrite Hid. by intros [?|?].
Qed.

(** X9.  The resolve route changes the state only when it answers
    with a result: a missing answer, an already resolved request and a
    failed resolve (unknown id) all leave every table, cache, log and
    ledger as they were. *)
Theorem resolveRoute_errors_change_nothing now publish id answer s :
  (forall result sent, snd (resolveRoute now publish id answer s) <> resolveJson result sent) ->
  fst (resolveRoute now publish id answer s) = s.
Proof.
  unfold resolveRoute. destruct (negb _); [done|].
  pose proof (resolveHelpRequest_not_found now publish id answer s) as Hnf.
  destruct (helpRequests s !! id) as [existing|] eqn:Hrow.
  - destruct (decide _); [done|].
    destruct (resolveHelpRequest now publish id answer s) as [s1 []]; cbn [fst snd] in *;
      try (destruct (_ && _); intros H; by edestruct H).
    all: intros _; by destruct Hnf as [? _]; auto.
  - destruct (resolveHelpRequest now publish id answer s) as [s1 []]; cbn [fst snd] in *;
      try (intros H; by edestruct H).
    all: intros _; by destruct Hnf as [? _]; auto.
Qed.

Lemma resolveRoute_errors_change_nothing_witness :
  fst (resolveRoute 7000 alwaysPublished 5 "Yes" onePending) = onePending.
Proof.
  apply resolveRoute_errors_change_nothing. intros result sent. vm_compute. discriminate.
Defined.

(** X10.  A request expires at most once: expiring it again changes
    nothing, returns nothing and signals no second event. *)
Theorem markAsExpired_twice now now' id s :
  markAsExpired now' id (fst (markAsExpired now id s)) = (fst (markAsExpired now id s), None).
Proof.
  unfold markAsExpired at 2 3.
  destruct (helpRequests s !! id) as [request|] eqn:Hid; cbn [fst].
  - destruct (decide (status request = pending)) as [Hp|Hp]; cbn [fst].
    + unfold markAsExpired. cbn [helpRequests emitLog withEmitted withHelpRequests].
      rewrite list_lookup_insert_eq by (by eapply lookup_lt_Some). by rewrite decide_False.
    + unfold markAsExpired. rewrite Hid. by rewrite decide_False.
  - unfold markAsExpired. by rewrite Hid.
Qed.

End NotificationFacts.

(** ** More on the timeout sweeps *)

Section SweepFacts.
Import Supervisor Timeout.

Lemma filter_nil {A} (P : A -> bool) (l : list A) :
  (forall x, In x l -> P x = false) -> List.filter P l = [].
Proof.
  induction l as [|x l IH]; [done|]. intros H. cbn [List.filter].
  rewrite (H x) by (by left). apply IH. intros y Hy. apply H. by right.
Qed.

Lemma expireEach_table_only_grows storeFails now requests s j :
  helpRequests (fst (expireEach storeFails now requests s)) !! j = None ->
  helpRequests s !! j = None.
Proof.
  intros H. destruct (helpRequests s !! j) as [row|] eqn:Hj; [|done].
  destruct (expireEach_any storeFails now requests s j row Hj) as (row' & Hrow' & _). congruence.
Qed.

(** X11.  A cron sweep that ran to its end leaves no pending request
    older than the threshold, so running it again at the same instant
    changes nothing, whatever the store does then. *)
Theorem completed_sweep_leaves_no_stale storeFails now s :
  snd (checkAndProcessExpiredRequests storeFails now s) = true ->
  findStale (now - 30 * 60 * 1000) (fst (checkAndProcessExpiredRequests storeFails now s)) = [] /\
  forall storeFails',
    checkAndProcessExpiredRequests storeFails' now
      (fst (checkAndProcessExpiredRequests storeFails now s))
    = (fst (checkAndProcessExpiredRequests storeFails now s), true).
Proof.
  intros Hdone.
  assert (Hnone : findStale (now - 30 * 60 * 1000)
                    (fst (checkAndProcessExpiredRequests storeFails now s)) = []).
  { apply filter_nil. intros [j row'] Hin. apply In_rowsOf in Hin.
    unfold checkAndProcessExpiredRequests, HELP_REQUEST_TIMEOUT_MINUTES in *.
    rewrite (expireEach_completed _ _ _ _ _ Hdone) in Hin.
    destruct (helpRequests s !! j) as [row|] eqn:Hj; [|done].
    injection Hin as <-. cbn [snd].
    destruct (decide _) as [[_ Hp]|Hnot]; [done|].
    apply not_true_is_false. rewrite andb_true_iff, bool_decide_eq_true, Z.ltb_lt.
    intros [Hp Hold]. apply Hnot. split; [|done].
    apply findStale_keys. by exists row. }
  split; [exact Hnone|]. intros storeFails'.
  unfold checkAndProcessExpiredRequests at 1. unfold HELP_REQUEST_TIMEOUT_MINUTES.
  by rewrite Hnone.
Qed.

Lemma completed_sweep_leaves_no_stale_witness :
  findStale (2000000 - 30 * 60 * 1000)
    (fst (checkAndProcessExpiredRequests reliableStore 2000000 threePending)) = [].
Proof.
  apply (completed_sweep_leaves_no_stale reliableStore 2000000 threePending).
  vm_compute. reflexivity.
Defined.

Lemma expireEach_events storeFails now requests s :
  NoDup (requests.*1) ->
  (forall x, In x requests ->
     helpRequests s !! fst x = Some (snd x) /\ status (snd x) = pending) ->
  snd (expireEach storeFails now requests s) = true ->
  emitted (fst (expireEach storeFails now requests s)) =
  emitted s ++
  List.map (fun x => HELP_REQUEST_EXPIRED (fst x) (hrQuestion (snd x)) (getCallerId (snd x)))
           requests.
Proof.
  revert s. induction requests as [|[id row] rest IH]; intros s Hnd Hrows.
  - intros _. cbn. by rewrite app_nil_r.
  - cbn [expireEach fst]. destruct (storeFails id); [done|]. intros Hdone.
    rewrite fmap_cons in Hnd. apply NoDup_cons in Hnd as [Hfresh Hnd].
    destruct (Hrows (id, row)) as [Hrow Hp]; [by left|]. cbn [fst snd] in *.
    rewrite IH; [|done| |done].
    + unfold markAsExpired. rewrite Hrow. rewrite decide_True by done.
      cbn [fst emitted emitLog withEmitted withHelpRequests List.map].
      by rewrite <- app_assoc.
    + intros x Hx. destruct (Hrows x) as [Hx1 Hx2]; [by right|]. split; [|done].
      rewrite markAsExpired_lookup, Hx1. rewrite decide_False; [done|].
      intros [Heq _]. apply Hfresh. rewrite <- Heq.
      apply list_elem_of_fmap. exists x. split; [done | by apply list_elem_of_In].
Qed.

Lemma markEachUnresolved_table_only storeFails now requests s :
  fst (markEachUnresolved storeFails now requests s)
  = withHelpRequests (helpRequests (fst (markEachUnresolved storeFails now requests s))) s.
Proof.
  revert s. induction requests as [|req rest IH]; intros s; [by destruct s|].
  cbn [markEachUnresolved]. destruct (storeFails (fst req)); [by destruct s|].
  rewrite IH at 1. done.
Qed.

(** X12.  A cron sweep that ran to its end has signalled one
    HELP_REQUEST_EXPIRED event for each request it fetched, in the order
    of the fetch; the interval worker writes the table and nothing else:
    it signals no event at all. *)
Theorem sweeps_signal_differently storeFails configured now s :
  (snd (checkAndProcessExpiredRequests storeFails now s) = true ->
   emitted (fst (checkAndProcessExpiredRequests storeFails now s)) =
   emitted s ++
   List.map (fun x => HELP_REQUEST_EXPIRED (fst x) (hrQuestion (snd x)) (getCallerId (snd x)))
            (findStale (now - 30 * 60 * 1000) s)) /\
  fst (timeoutWorkerTick configured storeFails now s)
    = withHelpRequests (helpRequests (fst (timeoutWorkerTick configured storeFails now s))) s.
Proof.
  split.
  - unfold checkAndProcessExpiredRequests, HELP_REQUEST_TIMEOUT_MINUTES.
    apply expireEach_events; [apply findStale_NoDup|].
    intros [j row] Hx. by apply In_findStale in Hx as (? & ? & _).
  - apply markEachUnresolved_table_only.
Qed.

Lemma sweeps_signal_differently_witness :
  emitted (fst (checkAndProcessExpiredRequests reliableStore (31 * 60 * 1000) threePending)) =
  emitted threePending ++
  List.map (fun x => HELP_REQUEST_EXPIRED (fst x) (hrQuestion (snd x)) (getCallerId (snd x)))
           (findStale (31 * 60 * 1000 - 30 * 60 * 1000) threePending).
Proof.
  apply (proj1 (sweeps_signal_differently reliableStore None (31 * 60 * 1000) threePending)).
  vm_compute. reflexivity.
Defined.

End SweepFacts.

(** ** More on the response cache and the resolve route *)

Section CacheFacts.
Import Text Ledger Supervisor.




Lemma resolveHelpRequest_responseCache now publish id answer s :
  responseCache (fst (resolveHelpRequest now publish id answer s)) = responseCache s.
Proof.
  unfold resolveHelpRequest, getById.
  destruct (decide _); [done|]. destruct (helpRequests s !! id) as [request|]; [|done].
  destruct (decide _); [done|].
  pose proof (update_tables now publish id (mkUpdate (Some resolved) (Some now) (Some answer) None) s)
    as (_ & _ & _ & _ & C1). cbn zeta in *.
  destruct (update now publish id _ s) as [s1 [updated|]]; cbn [fst snd] in *; [|done].
  match goal with |- context [update now publish id ?d ?s2] =>
    pose proof (update_tables now publish id d s2) as (_ & _ & _ & _ & C2) end.
  cbn zeta in *. by rewrite C2.
Qed.



Lemma handleHelpRequestResolved_unknown now publish id answer s :
  handleHelpRequestResolved now publish id "unknown" answer s = s.
Proof. unfold handleHelpRequestResolved. by destruct (decide _). Qed.

Lemma update_unknown_caller now publish id data s row :
  helpRequests s !! id = Some row -> getCallerId row = "unknown" ->
  published (fst (update now publish id data s)) = published s /\
  supervisorResponseCache (fst (update now publish id data s)) = supervisorResponseCache s /\
  sentSupervisorResponses (fst (update now publish id data s)) = sentSupervisorResponses s.
Proof.
  intros Hrow Hunknown. unfold update. rewrite Hrow. cbn [fst].
  assert (Hc : getCallerId (applyUpdate data row) = "unknown") by exact Hunknown.
  rewrite Hc.
  destruct (newStatus data) as [[]|]; try done.
  destruct (newSupervisorResponse data) as [a|]; [|done].
  destruct (truthy a); [|done].
  unfold emitResolved. cbn zeta. by rewrite !handleHelpRequestResolved_unknown.
Qed.

(** X15.  A request stored without a requester id is resolved silently:
    the route pushes nothing into any room, caches nothing and marks no
    ledger, whether or not the resolve itself goes through. *)
Theorem request_without_caller_is_not_notified now publish id answer s existing :
  helpRequests s !! id = Some existing ->
  callerId existing = "" \/ callerId existing = "unknown" ->
  published (fst (resolveRoute now publish id answer s)) = published s /\
  responseCache (fst (resolveRoute now publish id answer s)) = responseCache s /\
  supervisorResponseCache (fst (resolveRoute now publish id answer s))
    = supervisorResponseCache s.
Proof.
  intros Hrow Hcaller.
  assert (Hunknown : getCallerId existing = "unknown").
  { unfold getCallerId. by destruct Hcaller as [-> | ->]. }
  assert (Hservice :
    published (fst (resolveHelpRequest now publish id answer s)) = published s /\
    supervisorResponseCache (fst (resolveHelpRequest now publish id answer s))
      = supervisorResponseCache s).
  { unfold resolveHelpRequest, getById.
    destruct (decide _); [done|]. rewrite Hrow. destruct (decide _); [done|].
    pose proof (update_unknown_caller now publish id
                  (mkUpdate (Some resolved) (Some now) (Some answer) None) s existing
                  Hrow Hunknown) as (P1 & L1 & _).
    pose proof (update_tables now publish id
                  (mkUpdate (Some resolved) (Some now) (Some answer) None) s) as (R1 & _).
    cbn zeta in R1. rewrite Hrow in R1.
    destruct (update now publish id _ s) as [s1 [updated|]]; cbn [fst snd] in *; [|done].
    match goal with |- context [update now publish id ?d ?s2] =>
      pose proof (update_unknown_caller now publish id d s2
                    (applyUpdate (mkUpdate (Some resolved) (Some now) (Some answer) None) existing))
        as H2 end.
    destruct H2 as (P2 & L2 & _); [|exact Hunknown|].
    { cbn [helpRequests withKnowledgeBaseEntries]. rewrite R1.
      apply list_lookup_insert_eq. by eapply lookup_lt_Some. }
    by rewrite P2, L2. }
  pose proof (resolveHelpRequest_responseCache now publish id answer s) as Hrc.
  destruct Hservice as [Hp Hl].
  unfold resolveRoute. destruct (negb _); [done|]. rewrite Hrow.
  destruct (decide _); [done|]. rewrite Hunknown.
  cbn [truthy String.eqb negb andb].
  by destruct (resolveHelpRequest now publish id answer s) as [s1 []].
Qed.

Lemma request_without_caller_is_not_notified_witness :
  published (fst (resolveRoute 5000 alwaysPublished 0 "Yes" anonymousPending))
  = published anonymousPending.
Proof.
  apply (request_without_caller_is_not_notified 5000 alwaysPublished 0%nat "Yes"
           anonymousPending anonymousRequest).
  - reflexivity.
  - by left.
Defined.

End CacheFacts.

(** ** More on [handleMessage] *)

Section MessageFacts.
Import Text Ledger Agent AgentService.

Lemma regularFlow_insert now message caller s :
  let out := regularFlow now message caller s in
  (exists c, caller = Some c /\ isSpecialMessage message = false /\
     snd out = checkingWithSupervisor message /\
     helpRequests (fst out)
       = helpRequests s ++ [createHelpRequestData now message (formatCallerId c)]) \/
  ((forall m, snd out <> checkingWithSupervisor m) /\ helpRequests (fst out) = helpRequests s).
Proof.
  cbn zeta. unfold regularFlow.
  destruct (Knowledge.knowledgeStage _ _ _) as [kb [a|]]; [by right|].
  destruct caller as [c|]; [|by right].
  destruct (isSpecialMessage message) eqn:Hs; cbn [negb]; [by right|].
  destruct (findPending _ _ _); [by right|].
  left. by exists c.
Qed.

Lemma handleMessage_insert now roomName message callerId s :
  let out := handleMessage now roomName message callerId s in
  (exists c, callerId = Some c /\ c <> "" /\ isSpecialMessage message = false /\
     asksForSupervisorResponse message = false /\
     snd out = checkingWithSupervisor message /\
     helpRequests (fst out)
       = helpRequests s ++ [createHelpRequestData now message (formatCallerId c)]) \/
  ((forall m, snd out <> checkingWithSupervisor m) /\ helpRequests (fst out) = helpRequests s).
Proof.
  cbn zeta. unfold handleMessage.
  assert (Hdirect : forall c confirmation s0, helpRequests s0 = helpRequests s ->
            (forall m, confirmation <> checkingWithSupervisor m) ->
            let out := match directQuery now c confirmation s0 with
                       | Some out => out
                       | None => (s0, noSupervisorResponse)
                       end in
            (forall m, snd out <> checkingWithSupervisor m) /\
            helpRequests (fst out) = helpRequests s).
  { intros c confirmation s0 H0 Hconf. cbn zeta.
    destruct (directQuery _ _ _ _) as [[s' r]|] eqn:Hq; [|done].
    by apply directQuery_cases in Hq as [[-> ->]|(? & ? & ? & _ & -> & -> & _)]. }
  destruct callerId as [c|].
  2:{ destruct (regularFlow_insert now message None s) as [(c & ? & _)|H]; [done | by right]. }
  destruct (truthy c) eqn:Hc.
  2:{ destruct (regularFlow_insert now message None s) as [(c' & ? & _)|H]; [done | by right]. }
  set (s0 := emitLog _ s).
  destruct (String.eqb _ _); [right; by apply Hdirect|].
  destruct (asksForSupervisorResponse message) eqn:Hasks; [right; by apply Hdirect|].
  destruct (ambientCheck now c s0) as [[s' r]|] eqn:Ha.
  { right. by apply ambientCheck_cases in Ha as (? & ? & ? & _ & -> & -> & _). }
  destruct (regularFlow_insert now message (Some c) s0)
    as [(c' & [= <-] & Hs & Hreply & Hrows)|H]; [|by right].
  left. exists c. repeat split; try done. by destruct c.
Qed.

(** X16.  [handleMessage] inserts a help request exactly when it
    answers with the "let me check" acknowledgment: then the table gains
    one pending row for the trimmed requester id and the message;
    with any other answer the table is unchanged. *)
Theorem request_created_iff_acknowledged now roomName message callerId s :
  (forall m, snd (handleMessage now roomName message callerId s) = checkingWithSupervisor m ->
     m = message /\
     exists c, callerId = Some c /\
       helpRequests (fst (handleMessage now roomName message callerId s))
         = helpRequests s ++ [mkHelpRequest message (trim c) pending now None None None]) /\
  ((forall m, snd (handleMessage now roomName message callerId s) <> checkingWithSupervisor m) ->
   helpRequests (fst (handleMessage now roomName message callerId s)) = helpRequests s).
Proof.
  destruct (handleMessage_insert now roomName message callerId s)
    as [(c & -> & _ & _ & _ & Hreply & Hrows)|[Hno Hrows]]; cbn zeta in *.
  - split.
    + intros m Hm. rewrite Hreply in Hm. injection Hm as <-. split; [done|].
      exists c. split; [done|]. rewrite Hrows.
      unfold createHelpRequestData, formatCallerId. by rewrite trim_idempotent.
    + intros Hno. by destruct (Hno message).
  - split; [|done]. intros m Hm. by destruct (Hno m).
Qed.

Lemma request_created_iff_acknowledged_witness :
  "Do you do perms?" = "Do you do perms?" /\
  exists c, Some "42" = Some c /\
    helpRequests (fst (handleMessage 1000 "call-42" "Do you do perms?" (Some "42") emptyState))
      = helpRequests emptyState
        ++ [mkHelpRequest "Do you do perms?" (trim c) pending 1000 None None None].
Proof.
  apply (proj1 (request_created_iff_acknowledged 1000 "call-42" "Do you do perms?"
                  (Some "42") emptyState)).
  vm_compute. reflexivity.
Defined.



(** X18.  Without a requester id [handleMessage] only consults the
    knowledge base: it answers from it or says that it does not know, and
    apart from the in-memory knowledge map it changes nothing (no event,
    no ledger mark, no request). *)
Theorem message_without_caller now roomName message callerId s :
  callerId = None \/ callerId = Some "" ->
  fst (handleMessage now roomName message callerId s)
    = withKnowledgeBase (knowledgeBase (fst (handleMessage now roomName message callerId s))) s /\
  snd (handleMessage now roomName message callerId s)
    = match snd (Knowledge.knowledgeStage (knowledgeBase s) (knowledgeBaseEntries s) message) with
      | Some a => knowledgeAnswer a
      | None => dontKnow
      end.
Proof.
  intros H.
  assert (Hflow : handleMessage now roomName message callerId s
                  = regularFlow now message None s).
  { unfold handleMessage. by destruct H as [-> | ->]. }
  rewrite Hflow. unfold regularFlow.
  destruct (Knowledge.knowledgeStage _ _ _) as [kb [a|]]; by destruct s.
Qed.

Lemma message_without_caller_witness :
  snd (handleMessage 1000 "call-42" "Do you do perms?" None onePending) = dontKnow.
Proof.
  apply (message_without_caller 1000 "call-42" "Do you do perms?" None onePending). by left.
Defined.

(** X19.  Starting a call never erases a delivery mark: [handleCall]
    fails without touching the state when the room cannot be created, and
    otherwise leaves every mark of every requester as it was, only making
    sure that the requester has a (possibly empty) record in the ledger. *)
Theorem handleCall_keeps_marks createRoom caller s :
  match handleCall createRoom caller s with
  | None => createRoom (String.append "call-" caller) = false
  | Some s' =>
      createRoom (String.append "call-" caller) = true /\
      is_Some (supervisorResponseCache s' !! caller) /\
      (forall c id, markOf c id s' = markOf c id s) /\
      s' = withSupervisorResponseCache (supervisorResponseCache s') s
  end.
Proof.
  unfold handleCall. destruct (createRoom _); [|done].
  destruct (supervisorResponseCache s !! caller) as [m|] eqn:Hm.
  - split; [done|]. split; [by rewrite Hm|]. split; [done | by destruct s].
  - split; [done|]. cbn [supervisorResponseCache withSupervisorResponseCache].
    split; [by rewrite lookup_insert_eq|]. split; [|done].
    intros c id. unfold markOf. cbn [supervisorResponseCache withSupervisorResponseCache].
    destruct (decide (caller = c)) as [->|Hne].
    + by rewrite lookup_insert_eq, Hm.
    + by rewrite lookup_insert_ne.
Qed.

(** X20.  The cleanup of the ledger forgets a mark exactly when it is
    older than thirty minutes, and leaves no requester with an empty
    record behind. *)
Theorem ledger_cleanup_exact now s :
  (forall c id,
     markOf c id (Ledger.cleanup now s) =
     match markOf c id s with
     | Some t => if decide (now - t > 30 * 60 * 1000) then None else Some t
     | None => None
     end) /\
  (forall c responses,
     supervisorResponseCache (Ledger.cleanup now s) !! c = Some responses -> responses <> ∅).
Proof.
  split; [intros c id; apply markOf_cleanup|].
  intros c responses. unfold cleanup. cbn [supervisorResponseCache withSupervisorResponseCache].
  rewrite lookup_omap. destruct (supervisorResponseCache s !! c) as [m|]; [|done].
  cbn [mbind option_bind]. destruct (decide _) as [|Hsize]; [done|].
  intros [= <-] Hempty. apply Hsize. rewrite Hempty. apply map_size_empty.
Qed.

End MessageFacts.

(** ** Polls that keep no delivery record *)

Section PollRouteFacts.
Import Text Polls.

Lemma descBefore_asym a b : descBefore a b = true -> descBefore b a = false.
Proof.
  destruct a as [x|], b as [y|]; cbn; try done.
  intros H%Z.ltb_lt. apply Z.ltb_ge. lia.
Qed.

Lemma descBefore_irrefl a : descBefore a a = false.
Proof. destruct a as [x|]; cbn; [apply Z.ltb_irrefl | done]. Qed.

Lemma descBefore_chain a b c :
  descBefore a b = false -> descBefore b c = false -> descBefore a c = false.
Proof.
  destruct a as [x|], b as [y|], c as [z|]; cbn; try done.
  intros H1%Z.ltb_ge H2%Z.ltb_ge. apply Z.ltb_ge. lia.
Qed.

(** No row of the result sorts strictly before the one [firstDesc] takes. *)
Lemma firstDesc_first rows b x :
  firstDesc rows = Some b -> In x rows ->
  descBefore (resolvedAt (snd x)) (resolvedAt (snd b)) = false.
Proof.
  revert b. induction rows as [|x0 rest IH]; intros b; [done|]. cbn [firstDesc].
  destruct (firstDesc rest) as [b'|] eqn:Hrest.
  - destruct (descBefore _ _) eqn:Hd; intros [= <-] [<-|Hin].
    + by apply descBefore_asym.
    + by apply IH.
    + apply descBefore_irrefl.
    + eapply descBefore_chain; [by apply IH | done].
  - apply firstDesc_None in Hrest as ->. intros [= <-] [<-|[]]. apply descBefore_irrefl.
Qed.

Lemma foundIn_found hit response question answeredAt :
  foundIn hit = responseFound response question answeredAt ->
  exists id row, hit = Some (id, row) /\ supervisorResponse row = Some response /\
    response <> "" /\ hrQuestion row = question /\ resolvedAt row = answeredAt.
Proof.
  unfold foundIn. destruct hit as [[id row]|]; [|done].
  destruct (supervisorResponse row) as [r|] eqn:Hr; [|done].
  destruct (truthy r) eqn:Ht; [|done]. intros [= <- <- <-].
  exists id, row. repeat split; try done. by intros ->.
Qed.

(** X21.  What the webhook poll returns is a stored answer to the
    requester, given within the last five minutes, and no answer to the
    same requester is more recent. *)
Theorem webhook_poll_returns_latest now caller s response question answeredAt :
  webhookSupervisorResponse now caller s = responseFound response question answeredAt ->
  exists id row t,
    helpRequests s !! id = Some row /\ callerId row = trim caller /\
    status row = resolved /\ supervisorResponse row = Some response /\
    hrQuestion row = question /\ resolvedAt row = Some t /\ answeredAt = Some t /\
    now - 5 * 60 * 1000 <= t /\
    forall id' row' t',
      helpRequests s !! id' = Some row' -> callerId row' = trim caller ->
      status row' = resolved -> supervisorResponse row' <> None ->
      resolvedAt row' = Some t' -> t' <= t.
Proof.
  unfold webhookSupervisorResponse. destruct (truthy caller); [|done].
  intros (id & row & Hhit & Hresp & _ & Hq & Hat)%foundIn_found.
  pose proof (findFirstResolved_In _ _ _ _ _ Hhit) as [Hrow Hmatch].
  unfold resolvedSince, isResolvedFor in Hmatch. cbn [snd] in Hmatch.
  apply andb_true_iff in Hmatch as [[[Hc Hst]%andb_true_iff _]%andb_true_iff Hsince].
  apply bool_decide_eq_true in Hc, Hst.
  destruct (resolvedAt row) as [t|] eqn:Ht; [|done]. apply Z.leb_le in Hsince.
  exists id, row, t. repeat split; try done.
  intros id' row' t' Hrow' Hc' Hst' Hresp' Ht'.
  destruct (Z.le_gt_cases t' t) as [|Hlater]; [done|].
  assert (Hin : In (id', row')
                  (List.filter (resolvedSince (trim caller) (Some (now - 5 * 60 * 1000)))
                     (rowsOf s))).
  { apply filter_In. split; [by apply In_rowsOf|].
    unfold resolvedSince, isResolvedFor. cbn [snd]. rewrite Ht'.
    rewrite !bool_decide_eq_true_2 by done. cbn. apply Z.leb_le. lia. }
  pose proof (firstDesc_first _ _ _ Hhit Hin) as Hd. cbn [snd] in Hd.
  rewrite Ht, Ht' in Hd. cbn in Hd. apply Z.ltb_ge in Hd. lia.
Qed.

Lemma webhook_poll_returns_latest_witness :
  exists id row t,
    helpRequests (afterResolve) !! id = Some row /\ callerId row = trim "42" /\
    status row = resolved /\ supervisorResponse row = Some "Yes, $80" /\
    hrQuestion row = "Do you do perms?" /\ resolvedAt row = Some t /\ Some 5000 = Some t /\
    6000 - 5 * 60 * 1000 <= t /\
    forall id' row' t',
      helpRequests afterResolve !! id' = Some row' -> callerId row' = trim "42" ->
      status row' = resolved -> supervisorResponse row' <> None ->
      resolvedAt row' = Some t' -> t' <= t.
Proof.
  apply (webhook_poll_returns_latest 6000 "42" afterResolve). vm_compute. reflexivity.
Defined.

End PollRouteFacts.

Section AgentPollFacts.
Import Text Polls.

Lemma dropPrefix_append p s : dropPrefix p (String.append p s) = Some s.
Proof.
  induction p as [|a p IH]; [by destruct s|].
  rewrite append_String. cbn [dropPrefix]. by rewrite Ascii.eqb_refl.
Qed.

(** X22.  The agent poll answers the same for a participant identity
    ["caller-<id>"] as for the bare id, as long as the id does not itself
    begin with ["caller-"]. *)
Theorem agent_poll_ignores_identity_prefix roomName caller s :
  dropPrefix "caller-" caller = None -> caller <> "" ->
  agentSupervisorResponse roomName (Some (String.append "caller-" caller)) s
  = agentSupervisorResponse roomName (Some caller) s.
Proof.
  intros Hnone Hne. unfold agentSupervisorResponse.
  destruct roomName as [room|]; [|done].
  rewrite dropPrefix_append, Hnone. cbn [default].
  replace (truthy caller) with true by by destruct caller.
  by rewrite !append_String.
Qed.

Lemma agent_poll_ignores_identity_prefix_witness :
  agentSupervisorResponse (Some "call-42") (Some "caller-42") afterResolve
  = agentSupervisorResponse (Some "call-42") (Some "42") afterResolve.
Proof. by apply (agent_poll_ignores_identity_prefix (Some "call-42") "42" afterResolve). Defined.

End AgentPollFacts.

(** ** The report of inactive rooms *)

Section RoomFacts.
Import CheckEvents.

Lemma roomsWithLastActivity_snoc events e :
  roomsWithLastActivity (events ++ [e]) =
  match roomsWithLastActivity events !! roomName e with
  | Some last => if last <? eventAt e
                 then <[roomName e := eventAt e]> (roomsWithLastActivity events)
                 else roomsWithLastActivity events
  | None => <[roomName e := eventAt e]> (roomsWithLastActivity events)
  end.
Proof. unfold roomsWithLastActivity. by rewrite fold_left_app. Qed.

Lemma roomsWithLastActivity_inv events room :
  match roomsWithLastActivity events !! room with
  | Some t =>
      (exists e, In e events /\ roomName e = room /\ eventAt e = t) /\
      (forall e, In e events -> roomName e = room -> eventAt e <= t)
  | None => forall e, In e events -> roomName e <> room
  end.
Proof.
  induction events as [|e events IH] using rev_ind.
  - unfold roomsWithLastActivity. cbn. by rewrite lookup_empty.
  - rewrite roomsWithLastActivity_snoc.
    destruct (decide (roomName e = room)) as [<-|Hne].
    + destruct (roomsWithLastActivity events !! roomName e) as [last|] eqn:Hlast.
      * destruct IH as [(e0 & Hin0 & Hr0 & Ht0) Hmax].
        destruct (last <? eventAt e) eqn:Hlt.
        -- apply Z.ltb_lt in Hlt. rewrite lookup_insert_eq. split.
           ++ exists e. split; [apply in_or_app; right; by left | done].
           ++ intros e1 [Hin1|[<-|[]]]%in_app_or Hr1; [|lia].
              specialize (Hmax e1 Hin1 Hr1). lia.
        -- apply Z.ltb_ge in Hlt. rewrite Hlast. split.
           ++ exists e0. split; [apply in_or_app; by left | done].
           ++ intros e1 [Hin1|[<-|[]]]%in_app_or Hr1; [by apply Hmax | done].
      * rewrite lookup_insert_eq. split.
        -- exists e. split; [apply in_or_app; right; by left | done].
        -- intros e1 [Hin1|[<-|[]]]%in_app_or Hr1; [by destruct (IH e1) | lia].
    + assert (Hsame : (match roomsWithLastActivity events !! roomName e with
                       | Some last => if last <? eventAt e
                                      then <[roomName e := eventAt e]> (roomsWithLastActivity events)
                                      else roomsWithLastActivity events
                       | None => <[roomName e := eventAt e]> (roomsWithLastActivity events)
                       end) !! room = roomsWithLastActivity events !! room).
      { destruct (roomsWithLastActivity events !! roomName e) as [last|];
          [destruct (last <? eventAt e)|]; by rewrite ?lookup_insert_ne. }
      rewrite Hsame. destruct (roomsWithLastActivity events !! room) as [t|].
      * destruct IH as [(e0 & Hin0 & Hr0 & Ht0) Hmax]. split.
        -- exists e0. split; [apply in_or_app; by left | done].
        -- intros e1 [Hin1|[<-|[]]]%in_app_or Hr1; [by apply Hmax | done].
      * intros e1 [Hin1|[<-|[]]]%in_app_or; [by apply IH | done].
Qed.

(** The map holds, for each room, the instant of its latest event. *)
Lemma roomsWithLastActivity_spec events room t :
  roomsWithLastActivity events !! room = Some t <->
  (exists e, In e events /\ roomName e = room /\ eventAt e = t) /\
  (forall e, In e events -> roomName e = room -> eventAt e <= t).
Proof.
  pose proof (roomsWithLastActivity_inv events room) as Hinv.
  destruct (roomsWithLastActivity events !! room) as [t0|].
  - destruct Hinv as [(e0 & Hin0 & Hr0 & Ht0) Hmax0]. split.
    + intros [= <-]. split; [by exists e0 | done].
    + intros [(e & Hin & Hr & Ht) Hmax]. f_equal.
      specialize (Hmax0 e Hin Hr). specialize (Hmax e0 Hin0 Hr0). lia.
  - split; [done|]. intros [(e & Hin & Hr & _) _]. by destruct (Hinv e Hin).
Qed.

(** X23.  A room is reported as inactive exactly when it had an event
    within the last hour and none within the last thirty minutes; the
    instant reported is that of its latest event. *)
Theorem inactive_room_report now events room t :
  inactiveRooms now events !! room = Some t <->
  (exists e, In e events /\ roomName e = room /\ eventAt e = t) /\
  now - 60 * 60 * 1000 <= t < now - 30 * 60 * 1000 /\
  (forall e, In e events -> roomName e = room -> eventAt e <= t).
Proof.
  unfold inactiveRooms. rewrite map_lookup_filter_Some, roomsWithLastActivity_spec.
  unfold recentEvents. cbn [snd]. split.
  - intros [[(e & [Hin Hrecent]%filter_In & Hr & Ht) Hmax] Hold].
    apply Z.leb_le in Hrecent. split; [by exists e|]. split; [lia|].
    intros e1 Hin1 Hr1. destruct (Z.le_gt_cases (now - 60 * 60 * 1000) (eventAt e1)).
    + apply Hmax; [|done]. apply filter_In. split; [done | by apply Z.leb_le].
    + lia.
  - intros [(e & Hin & Hr & Ht) [[Hrecent Hold] Hmax]]. split; [|done]. split.
    + exists e. split; [|done]. apply filter_In. split; [done|]. apply Z.leb_le. lia.
    + intros e1 [Hin1 _]%filter_In Hr1. by apply Hmax.
Qed.

End RoomFacts.

(** ** Listings *)

Section ListingFacts.
Import ErrorHandler Listing.

Lemma insertDesc_perm x rows : insertDesc x rows ≡ₚ x :: rows.
Proof.
  induction rows as [|y rest IH]; [done|]. cbn [insertDesc].
  destruct (_ <=? _); [done|]. rewrite IH. apply Permutation_swap.
Qed.

Lemma sortDesc_perm rows : sortDesc rows ≡ₚ rows.
Proof.
  induction rows as [|x rest IH]; [done|]. cbn [sortDesc fold_right].
  fold (sortDesc rest). by rewrite insertDesc_perm, IH.
Qed.




Lemma pagesOf_enough total limit : (0 < limit)%nat -> (total <= pagesOf total limit * limit)%nat.
Proof.
  intros Hl. unfold pagesOf.
  pose proof (Nat.div_mod_eq (total + limit - 1) limit) as Hdiv.
  pose proof (Nat.mod_upper_bound (total + limit - 1) limit ltac:(lia)) as Hmod. nia.
Qed.

Lemma pagesOf_least total limit :
  (0 < limit)%nat -> (0 < total)%nat -> ((pagesOf total limit - 1) * limit < total)%nat.
Proof.
  intros Hl Ht. unfold pagesOf.
  pose proof (Nat.div_mod_eq (total + limit - 1) limit) as Hdiv.
  pose proof (Nat.mod_upper_bound (total + limit - 1) limit ltac:(lia)) as Hmod. nia.
Qed.

Lemma getAll_total filter page limit s :
  snd (getAll filter page limit s) = length (sortDesc (List.filter (hasStatus filter) (rowsOf s))).
Proof. unfold getAll. cbn [snd]. by rewrite sortDesc_perm. Qed.



(** X25.  A page of a listing is empty exactly when its number is
    beyond the [pages] count of the pagination object. *)
Theorem listing_page_empty_iff filter page limit s :
  (0 < limit)%nat -> (1 <= page)%nat ->
  fst (getAll filter page limit s) = [] <->
  (pagesOf (snd (getAll filter page limit s)) limit < page)%nat.
Proof.
  intros Hlimit Hpage. rewrite getAll_total. unfold getAll. cbn [fst].
  set (sorted := sortDesc _).
  assert (Hempty : firstn limit (skipn ((page - 1) * limit) sorted) = [] <->
                   (length sorted <= (page - 1) * limit)%nat).
  { split.
    - intros H. apply (f_equal length) in H.
      rewrite length_firstn, length_skipn in H. cbn [length] in H. lia.
    - intros H. rewrite skipn_all2 by done. apply firstn_nil. }
  rewrite Hempty.
  pose proof (pagesOf_enough (length sorted) limit Hlimit) as Henough.
  split.
  - intros Hle. destruct (Nat.eq_0_gt_0_cases (length sorted)) as [Hzero|Hpos].
    + rewrite Hzero. unfold pagesOf.
      replace (0 + limit - 1)%nat with (limit - 1)%nat by lia.
      rewrite Nat.div_small by lia. lia.
    + pose proof (pagesOf_least (length sorted) limit Hlimit Hpos). nia.
  - intros Hlt. nia.
Qed.

Lemma listing_page_empty_iff_witness :
  fst (getAll None 3 2 threePending) = [] <->
  (pagesOf (snd (getAll None 3 2 threePending)) 2 < 3)%nat.
Proof. apply (listing_page_empty_iff None 3 2 threePending); lia. Defined.

Lemma In_page {A} (x : A) limit skip l : In x (firstn limit (skipn skip l)) -> In x l.
Proof.
  intros H. rewrite <- (firstn_skipn skip l). apply in_or_app. right.
  rewrite <- (firstn_skipn limit (skipn skip l)). apply in_or_app. by left.
Qed.

Lemma validatePagination_valid page limit defaultLimit maxLimit pageNum limitNum :
  validatePagination page limit defaultLimit maxLimit = validPagination pageNum limitNum ->
  1 <= pageNum /\ 1 <= limitNum <= maxLimit.
Proof.
  unfold validatePagination.
  destruct (match page with Some text => _ | None => _ end) as [p|]; [|done].
  destruct (p <? 1) eqn:Hp; [done|].
  destruct (match limit with Some text => _ | None => _ end) as [l|]; [|done].
  destruct (l <? 1) eqn:Hl1; [done|]. destruct (maxLimit <? l) eqn:Hl2; [done|].
  intros [= <- <-]. apply Z.ltb_ge in Hp, Hl1, Hl2. lia.
Qed.

(** X26.  Whatever the query, [GET /help-requests] either refuses it
    or returns at most a hundred rows; every row returned is a stored
    request and, when the status asked for is one of the three, has that
    status; the total counts all such requests. *)
Theorem listing_route_is_bounded statusText page limit s reply :
  helpRequestsRoute statusText page limit s = inr reply ->
  (length (pageData reply) <= 100)%nat /\
  1 <= pageNumber reply /\ 1 <= pageLimit reply <= 100 /\
  pageTotal reply = length (List.filter (hasStatus (validStatus statusText)) (rowsOf s)) /\
  (forall id row, In (id, row) (pageData reply) ->
     helpRequests s !! id = Some row /\
     forall wanted, validStatus statusText = Some wanted -> status row = wanted).
Proof.
  unfold helpRequestsRoute.
  destruct (validatePagination page limit 10 100) as [| |pageNum limitNum] eqn:Hvalid;
    [done|done|].
  apply validatePagination_valid in Hvalid as [Hp Hl].
  unfold getAll. intros [= <-]. cbn [pageData pageNumber pageLimit pageTotal].
  split; [rewrite length_firstn; lia|]. do 3 (split; [done|]).
  intros id row Hin%In_page.
  rewrite <- list_elem_of_In, sortDesc_perm, list_elem_of_In in Hin.
  apply filter_In in Hin as [Hrow Hstatus]. split; [by apply In_rowsOf|].
  intros wanted Hw. rewrite Hw in Hstatus. by apply bool_decide_eq_true in Hstatus.
Qed.

Lemma listing_route_is_bounded_witness :
  (length (fst (getAll (Some pending) 1 2 threePending)) <= 100)%nat.
Proof.
  pose proof (listing_route_is_bounded (Some "pending") None (Some "2") threePending
                (mkPage (fst (getAll (Some pending) 1 2 threePending)) 3 1 2 2)) as H.
  apply H. vm_compute. reflexivity.
Defined.

(** X27.  A request that [handleMessage] acknowledged is found by
    [findHelpRequestsByCallerId] among the pending requests of its
    requester. *)
Theorem acknowledged_request_is_listed now roomName message caller s :
  snd (Agent.handleMessage now roomName message (Some caller) s)
    = Agent.checkingWithSupervisor message ->
  In (length (helpRequests s),
      mkHelpRequest message (Text.trim caller) pending now None None None)
     (findHelpRequestsByCallerId caller (Some pending)
        (fst (Agent.handleMessage now roomName message (Some caller) s))).
Proof.
  intros Hreply.
  destruct (handleMessage_insert now roomName message (Some caller) s)
    as [(c & [= <-] & _ & _ & _ & _ & Hrows)|[Hno _]]; cbn zeta in *;
    [|by destruct (Hno message)].
  unfold findHelpRequestsByCallerId.
  rewrite <- list_elem_of_In, sortDesc_perm, list_elem_of_In.
  apply filter_In. split.
  - apply In_rowsOf. rewrite Hrows.
    unfold createHelpRequestData, Agent.formatCallerId. rewrite trim_idempotent.
    rewrite lookup_app_r by lia. by rewrite Nat.sub_diag.
  - cbn [snd callerId status hasStatus]. by rewrite !bool_decide_eq_true_2.
Qed.

Lemma acknowledged_request_is_listed_witness :
  In (0%nat, mkHelpRequest "Do you do perms?" (Text.trim "42") pending 1000 None None None)
     (findHelpRequestsByCallerId "42" (Some pending)
        (fst (Agent.handleMessage 1000 "call-42" "Do you do perms?" (Some "42") emptyState))).
Proof.
  apply (acknowledged_request_is_listed 1000 "call-42" "Do you do perms?" "42" emptyState).
  vm_compute. reflexivity.
Defined.

End ListingFacts.
